(** * Soccer tracker: the statistics engine and the event boundary of [app.py]

    A shallow embedding of [app.py] (Flask + SQLAlchemy).  The persistent
    store is a list of [Event] rows, the routes are functions over it, and the
    Python values they compute with (unbounded integers, binary64 floats,
    [str], [datetime], dictionaries) are modelled below, before the routes.

    A [str] is represented by its UTF-8 encoding, as a string literal of
    Rocq is: ["é"] is the two bytes [195; 169].  Two texts are equal exactly
    when their encodings are, and the order of the encodings, byte by byte,
    is the order of the texts, code point by code point. *)

From Corelib Require Import SpecFloat.
From Stdlib Require Import ZArith QArith Qround Qpower Qreduction Lqa Lia Ascii String.
From stdpp Require Import gmap strings list sorting fin_maps.

Local Open Scope string_scope.
Local Open Scope list_scope.
Local Open Scope Z_scope.

(** ** Python values *)

(** The exceptions the modelled code can meet. *)
Inductive exn : Type :=
  | ZeroDivisionError
  | OverflowError
  | IntegrityError.

Inductive result (A : Type) : Type :=
  | Ok (a : A)
  | Raise (e : exn).
Arguments Ok {A} a.
Arguments Raise {A} e.

#[global] Instance result_ret : MRet result := fun A a => Ok a.
#[global] Instance result_bind : MBind result := fun A B k r =>
  match r with
  | Ok a => k a
  | Raise e => Raise e
  end.

(** Truth value of an [int] in a condition. *)
Definition int_truthy (n : Z) : bool := negb (n =? 0).

(** ** binary64

    A finite [float] is represented by the rational number it denotes.
    [fl] is IEEE 754 rounding to nearest, ties to even, at 53 bits of
    precision: every float operation of the program is the exact operation
    followed by [fl].  The exponent range is not represented: the operands
    are counts of rows of one list, far inside it. *)
Module Binary64.

Definition float : Type := Q.

Definition prec : Z := 53.

(** [ilog2 q] is the exponent of the binade of [q > 0]:
    [2 ^ ilog2 q <= q < 2 ^ (ilog2 q + 1)]. *)
Definition ilog2 (q : Q) : Z :=
  let e := Z.log2 (Qnum q) - Z.log2 (Z.pos (Qden q)) in
  if Qle_bool (2 ^ e) q then e else e - 1.

(** Nearest integer, ties to the even one. *)
Definition rne (q : Q) : Z :=
  let f := Qfloor q in
  match (q - inject_Z f ?= 1 # 2)%Q with
  | Lt => f
  | Gt => f + 1
  | Eq => if Z.even f then f else f + 1
  end.

(** The unit in the last place of the binade of [q > 0]. *)
Definition ulp (q : Q) : Q := (2 ^ (ilog2 q - (prec - 1)))%Q.

Definition fl_pos (q : Q) : Q :=
  Qred (inject_Z (rne (q / ulp q)) * ulp q).

Definition fl (q : Q) : float :=
  match (q ?= 0)%Q with
  | Eq => 0%Q
  | Gt => fl_pos q
  | Lt => Qred (- fl_pos (- q))
  end.

(** [int.__float__], exact below [2 ^ 53]. *)
Definition of_int (n : Z) : float := fl (inject_Z n).

(** [float * float]. *)
Definition mul (x y : float) : float := fl (x * y).

(** [int / int]: the correctly rounded quotient, or [ZeroDivisionError]. *)
Definition truediv (a b : Z) : result float :=
  if b =? 0 then Raise ZeroDivisionError
  else Ok (fl (inject_Z a / inject_Z b)).

(** [round(x, 2)]: the decimal with two fractional digits nearest to the
    value of [x] (ties to the even last digit), read back as a float. *)
Definition round2 (x : float) : float :=
  fl (inject_Z (rne (x * 100)) / 100).

(** The float a decimal literal with two fractional digits denotes,
    [33.33] being [literal2 3333]. *)
Definition literal2 (hundredths : Z) : float :=
  fl (inject_Z hundredths / 100).

End Binary64.

Abbreviation float := Binary64.float.

(** A [float] in general, as [float(s)] returns it and a [Float] column
    holds it: a finite number, an infinity or [nan].  Zero has one
    representation: the database returns [-0.0] as [0.0]. *)
Inductive pyfloat : Type :=
  | Finite (x : float)
  | Infinity (negative : bool)
  | NaN.

(** ** [str], [date] and [datetime] *)

(** [c.isspace()] for the character with code point [c]: the characters
    [str.strip()] removes. *)
Definition py_isspace (c : N) : bool :=
  ((9 <=? c) && (c <=? 13) || (28 <=? c) && (c <=? 32)
   || (c =? 0x85) || (c =? 0xA0) || (c =? 0x1680)
   || (0x2000 <=? c) && (c <=? 0x200A)
   || (c =? 0x2028) || (c =? 0x2029) || (c =? 0x202F) || (c =? 0x205F)
   || (c =? 0x3000))%N.

(** The six bits a byte [10xxxxxx] adds to a character. *)
Definition trail (b : ascii) : N := (N_of_ascii b - 0x80)%N.

(** The first character of a text and the rest of the text: one to four
    bytes, by the leading byte.  [None] for the empty text and for bytes
    that start no character. *)
Definition first_char (s : string) : option (N * string) :=
  match s with
  | EmptyString => None
  | String a s1 =>
    let b := N_of_ascii a in
    if (b <? 0x80)%N then Some (b, s1)
    else if (b <? 0xC0)%N then None
    else if (b <? 0xE0)%N then
      match s1 with
      | String a1 s2 => Some (((b - 0xC0) * 64 + trail a1)%N, s2)
      | _ => None
      end
    else if (b <? 0xF0)%N then
      match s1 with
      | String a1 (String a2 s3) =>
          Some ((((b - 0xE0) * 64 + trail a1) * 64 + trail a2)%N, s3)
      | _ => None
      end
    else if (b <? 0xF8)%N then
      match s1 with
      | String a1 (String a2 (String a3 s4)) =>
          Some (((((b - 0xF0) * 64 + trail a1) * 64 + trail a2) * 64
                 + trail a3)%N, s4)
      | _ => None
      end
    else None
  end.

(** [s.lstrip()], looking at no more than [n] characters. *)
Fixpoint lstrip_upto (n : nat) (s : string) : string :=
  match n with
  | O => s
  | S n' =>
    match first_char s with
    | Some (c, rest) => if py_isspace c then lstrip_upto n' rest else s
    | None => s
    end
  end.

(** [s.lstrip()]: a text has no more characters than bytes. *)
Definition lstrip (s : string) : string := lstrip_upto (String.length s) s.

(** [s.rstrip()]: the text up to the place from which only white space
    follows.  Such a place is the start of a character: a byte inside a
    character starts none. *)
Fixpoint rstrip (s : string) : string :=
  match s with
  | EmptyString => EmptyString
  | String a s' =>
      if String.eqb (lstrip s) "" then EmptyString else String a (rstrip s')
  end.

(** [s.strip()] *)
Definition strip (s : string) : string := rstrip (lstrip s).

(** Truth value of a [str]. *)
Definition str_truthy (s : string) : bool :=
  match s with EmptyString => false | _ => true end.

(** [datetime.date]: the class keeps [1 <= year <= 9999], [1 <= month <= 12]
    and [1 <= day <= 31]; see [valid_date]. *)
Record date : Type := mkdate { year : Z; month : Z; day : Z }.

Record datetime : Type := mkdatetime {
  dt_year : Z; dt_month : Z; dt_day : Z;
  dt_hour : Z; dt_minute : Z; dt_second : Z; dt_microsecond : Z }.

(** [datetime.date()] *)
Definition datetime_date (t : datetime) : date :=
  mkdate (dt_year t) (dt_month t) (dt_day t).

Definition valid_date (d : date) : Prop :=
  1 <= year d <= 9999 ∧ 1 <= month d <= 12 ∧ 1 <= day d <= 31.

(** Dates compare as the tuples [(year, month, day)]. *)
Definition date_cmp (a b : date) : comparison :=
  match year a ?= year b with
  | Eq => match month a ?= month b with
          | Eq => day a ?= day b
          | c => c
          end
  | c => c
  end.

Definition date_ge (a b : date) : bool :=
  match date_cmp a b with Lt => false | _ => true end.

Definition date_lt (a b : date) : Prop := date_cmp a b = Lt.

Definition digit (d : Z) : ascii := ascii_of_N (48 + Z.to_N d).

(** ["%0wd" % n] for [0 <= n < 10 ^ w]: [w] decimal digits, the most
    significant first. *)
Fixpoint zfill (w : nat) (n : Z) : string :=
  match w with
  | O => EmptyString
  | S w' => String (digit (n / 10 ^ Z.of_nat w'))
                   (zfill w' (n mod 10 ^ Z.of_nat w'))
  end.

(** [date.isoformat()]: ["%04d-%02d-%02d" % (year, month, day)]. *)
Definition isoformat (d : date) : string :=
  zfill 4 (year d) +:+ "-" +:+ zfill 2 (month d) +:+ "-" +:+ zfill 2 (day d).

(** ** The data model *)

(** Event types for outfield and keeper *)
Definition OUTFIELD_TYPES : list string := ["shot"; "goal"; "assist"; "pass"].
Definition KEEPER_TYPES : list string := ["shot_on_goal_against"; "save"; "concede"].

Record Event : Type := mkEvent {
  event_id : Z;
  timestamp : datetime;
  position : string;
  event_type : string;
  on_target : bool;
  scored : bool;
  notes : option string }.

Record TrainingGoal : Type := mkTrainingGoal {
  goal_id : Z;
  metric : string;
  target : pyfloat;
  created_at : datetime }.

(** The two tables of the database. *)
Record db : Type := mkdb {
  db_events : list Event;
  db_goals : list TrainingGoal }.

(** [x in t] for a tuple of strings. *)
Definition str_in (x : string) (t : list string) : bool :=
  existsb (String.eqb x) t.
Arguments str_in : simpl never.

(** The primary key the store gives a new row: one more than the largest
    key of the table, which is the rule of SQLite for an [INTEGER PRIMARY KEY]
    as long as the largest key is below [2 ^ 63 - 1]. *)
Definition fresh_id (ids : list Z) : Z := 1 + foldr Z.max 0 ids.

(** ** [add_event]: the route [/add] *)

Inductive method : Type := GET | POST.

Inductive response : Type :=
  | Render (template : string)
  | Redirect (endpoint : string) (flash category : string)
  | BadRequest (key : string)
  | InternalServerError (e : exn).

(** [request.form[key]]: a missing key aborts the request with status 400. *)
Definition add_event (m : method) (form : gmap string string) (utcnow : datetime)
    (st : db) : response * db :=
  match m with
  | POST =>
    match form !! "position" with
    | None => (BadRequest "position", st)
    | Some position =>
      match form !! "event_type" with
      | None => (BadRequest "event_type", st)
      | Some event_type =>
        let notes :=
          let s := strip (default "" (form !! "notes")) in
          if str_truthy s then Some s else None in
        let on_target := bool_decide (form !! "on_target" = Some "yes") in
        let scored := bool_decide (form !! "scored" = Some "yes") in
        (* Basic validation *)
        if negb (str_in position ["field"; "keeper"]) then
          (Redirect "add_event" "Invalid position" "danger", st)
        else if String.eqb position "field" && negb (str_in event_type OUTFIELD_TYPES) then
          (Redirect "add_event" "Invalid outfield event type" "danger", st)
        else if String.eqb position "keeper" && negb (str_in event_type KEEPER_TYPES) then
          (Redirect "add_event" "Invalid keeper event type" "danger", st)
        else
          let ev := mkEvent (fresh_id (event_id <$> db_events st)) utcnow
                            position event_type on_target scored notes in
          (Redirect "index" "Event added!" "success",
           mkdb (db_events st ++ [ev]) (db_goals st))
      end
    end
  | GET => (Render "add_event.html", st)
  end.

(** [admin_clear]: the route [/admin/clear]. *)
Definition admin_clear (st : db) : response * db :=
  (Redirect "index" "All data cleared (admin)" "warning", mkdb [] []).

(** ** The statistics engine *)

(** [sum(1 for e in events if c(e))] *)
Definition sum_ones {A : Type} (c : A → bool) (events : list A) : Z :=
  foldl (fun acc e => if c e then acc + 1 else acc) 0 events.

(** What [compute_goal_progress] returns: [None], an [int] or a [float]. *)
Inductive progress : Type :=
  | PNone
  | PInt (n : Z)
  | PFloat (x : float).

(** [utcnow] is what [datetime.utcnow()] answers during the call. *)
Definition compute_goal_progress (metric : string) (target : pyfloat)
    (events : list Event) (utcnow : datetime) : result progress :=
  if String.eqb metric "goals_per_week" then
    (* count goals in last 7 days *)
    let cutoff := datetime_date utcnow in
    let last7 :=
      List.filter (fun e =>
        String.eqb (position e) "field"
        && (String.eqb (event_type e) "goal"
            || String.eqb (event_type e) "shot" && scored e)
        && date_ge (datetime_date (timestamp e)) cutoff) events in
    mret (PInt (Z.of_nat (length last7)))
  else if String.eqb metric "save_percentage" then
    let shots_on := sum_ones (fun e =>
      String.eqb (position e) "keeper"
      && String.eqb (event_type e) "shot_on_goal_against") events in
    let saves := sum_ones (fun e =>
      String.eqb (position e) "keeper" && String.eqb (event_type e) "save") events in
    if int_truthy shots_on then
      q ← Binary64.truediv saves shots_on;
      mret (PFloat (Binary64.mul q (Binary64.of_int 100)))
    else mret PNone
  else if String.eqb metric "shots_per_training" then
    let total_shots := sum_ones (fun e =>
      String.eqb (position e) "field" && String.eqb (event_type e) "shot") events in
    (* no session table, so we return total shots as fallback *)
    mret (PInt total_shots)
  else
    (* if unknown metric, return None *)
    mret PNone.

(** One value of [by_date]: [{'goals': 0, 'shots': 0}]. *)
Record day_counts : Type := mk_day { day_goals : Z; day_shots : Z }.

(** The [defaultdict]'s factory. *)
Definition by_date_default : day_counts := mk_day 0 0.

(** [by_date[day]['goals'] += 1] and [by_date[day]['shots'] += 1]: reading a
    missing key of the [defaultdict] first stores the default under it. *)
Definition incr_goals (day : string) (by_date : gmap string day_counts) :
    gmap string day_counts :=
  let c := default by_date_default (by_date !! day) in
  <[day := mk_day (day_goals c + 1) (day_shots c)]> by_date.

Definition incr_shots (day : string) (by_date : gmap string day_counts) :
    gmap string day_counts :=
  let c := default by_date_default (by_date !! day) in
  <[day := mk_day (day_goals c) (day_shots c + 1)]> by_date.

(** The body of the loop over [events] that fills [by_date]. *)
Definition by_date_step (by_date : gmap string day_counts) (e : Event) :
    gmap string day_counts :=
  let day := isoformat (datetime_date (timestamp e)) in
  let by_date :=
    if String.eqb (position e) "field"
       && (String.eqb (event_type e) "goal"
           || String.eqb (event_type e) "shot" && scored e)
    then incr_goals day by_date else by_date in
  if String.eqb (position e) "field" && String.eqb (event_type e) "shot"
  then incr_shots day by_date else by_date.

(** [sorted(d.keys())]: the keys are distinct and [String.le] is total, so
    the result does not depend on the order the dictionary lists them in. *)
Definition sorted_keys {V : Type} (d : gmap string V) : list string :=
  merge_sort String.le ((map_to_list d).*1).

Record chart : Type := mk_chart {
  chart_labels : list string;
  chart_goals : list Z;
  chart_shots : list Z }.

Definition chart_of (events : list Event) : chart :=
  let by_date := foldl by_date_step ∅ events in
  let dates := sorted_keys by_date in
  mk_chart dates
    ((fun d => day_goals (default by_date_default (by_date !! d))) <$> dates)
    ((fun d => day_shots (default by_date_default (by_date !! d))) <$> dates).

(** One entry of [goals_progress]. *)
Record goal_progress : Type := mk_goal_progress {
  gp_metric : string;
  gp_target : pyfloat;
  gp_progress : progress }.

(** What [stats] hands to the template [stats.html]. *)
Record stats_page : Type := mk_stats_page {
  total_shots : Z;
  total_on_target : Z;
  total_goals : Z;
  total_assists : Z;
  total_passes : Z;
  goal_percentage : option float;
  on_target_percentage : option float;
  shots_on_against : Z;
  saves : Z;
  save_percentage : option float;
  goals_allowed : Z;
  goals_progress : list goal_progress;
  chart_data : chart }.

(** [stats]: the route [/stats].  [clock i] is what [datetime.utcnow()]
    answers while the progress of the [i]-th training goal is computed. *)
Definition stats (events : list Event) (goals : list TrainingGoal)
    (clock : nat → datetime) : result stats_page :=
  (* Outfield calculations *)
  let total_shots := sum_ones (fun e =>
    String.eqb (position e) "field" && String.eqb (event_type e) "shot") events in
  let total_on_target := sum_ones (fun e =>
    String.eqb (position e) "field" && String.eqb (event_type e) "shot"
    && on_target e) events in
  let total_goals := sum_ones (fun e =>
    String.eqb (position e) "field"
    && (String.eqb (event_type e) "goal"
        || String.eqb (event_type e) "shot" && scored e)) events in
  let total_assists := sum_ones (fun e =>
    String.eqb (position e) "field" && String.eqb (event_type e) "assist") events in
  let total_passes := sum_ones (fun e =>
    String.eqb (position e) "field" && String.eqb (event_type e) "pass") events in
  goal_percentage ←
    (if int_truthy total_shots then
       q ← Binary64.truediv total_goals total_shots;
       mret (Some (Binary64.mul q (Binary64.of_int 100)))
     else mret None);
  on_target_percentage ←
    (if int_truthy total_shots then
       q ← Binary64.truediv total_on_target total_shots;
       mret (Some (Binary64.mul q (Binary64.of_int 100)))
     else mret None);
  (* Keeper calculations (shots on goal against, saves, save percentage) *)
  let shots_on_against := sum_ones (fun e =>
    String.eqb (position e) "keeper"
    && String.eqb (event_type e) "shot_on_goal_against") events in
  let saves := sum_ones (fun e =>
    String.eqb (position e) "keeper" && String.eqb (event_type e) "save") events in
  let conceded := sum_ones (fun e =>
    String.eqb (position e) "keeper" && String.eqb (event_type e) "concede") events in
  save_percentage ←
    (if int_truthy shots_on_against then
       q ← Binary64.truediv saves shots_on_against;
       mret (Some (Binary64.mul q (Binary64.of_int 100)))
     else mret None);
  let goals_allowed := conceded in
  (* Training goals progress *)
  goals_progress ←
    mapM (fun ig : nat * TrainingGoal =>
            let g := ig.2 in
            prog ← compute_goal_progress (metric g) (target g) events (clock ig.1);
            mret (mk_goal_progress (metric g) (target g) prog))
         (imap pair goals);
  (* simple time series by date (YYYY-MM-DD) *)
  let chart_data := chart_of events in
  mret (mk_stats_page total_shots total_on_target total_goals total_assists
          total_passes
          (Binary64.round2 <$> goal_percentage)
          (Binary64.round2 <$> on_target_percentage)
          shots_on_against saves
          (Binary64.round2 <$> save_percentage)
          goals_allowed goals_progress chart_data).

(** [api_stats]: the route [/api/stats], the dictionary given to [jsonify]. *)
Definition api_stats (events : list Event) : gmap string Z :=
  <["total_shots" := sum_ones (fun e =>
      String.eqb (position e) "field" && String.eqb (event_type e) "shot") events]>
  (<["total_goals" := sum_ones (fun e =>
      String.eqb (position e) "field"
      && (String.eqb (event_type e) "goal"
          || String.eqb (event_type e) "shot" && scored e)) events]>
  (<["total_assists" := sum_ones (fun e =>
      String.eqb (position e) "field" && String.eqb (event_type e) "assist") events]>
  (<["keeper_saves" := sum_ones (fun e =>
      String.eqb (position e) "keeper" && String.eqb (event_type e) "save") events]>
   ∅))).

(** ** [goals] and [delete_goal]: the routes [/goals] and [/goal/delete/<goal_id>] *)

(** [goals].  [float_of_str s] is what [float(s)] returns, [None] when it
    raises [ValueError]; a missing form key aborts with status 400, inside
    the [try] as well, since [except ValueError] does not catch it.  The
    database has no [nan]: it takes one for [NULL], which the column
    [target] refuses, so that the commit raises [IntegrityError] and the
    request ends with status 500. *)
Definition goals (float_of_str : string → option pyfloat) (m : method)
    (form : gmap string string) (utcnow : datetime) (st : db) : response * db :=
  match m with
  | POST =>
    match form !! "metric" with
    | None => (BadRequest "metric", st)
    | Some metric =>
      let metric := strip metric in
      match form !! "target" with
      | None => (BadRequest "target", st)
      | Some target =>
        match float_of_str target with
        | None => (Redirect "goals" "Target must be a number" "danger", st)
        | Some NaN => (InternalServerError IntegrityError, st)
        | Some target =>
          let g := mkTrainingGoal (fresh_id (goal_id <$> db_goals st))
                                  metric target utcnow in
          (Redirect "goals" "Training goal added" "success",
           mkdb (db_events st) (db_goals st ++ [g]))
        end
      end
    end
  | GET => (Render "goals.html", st)
  end.

(** What a route with [get_or_404] answers. *)
Inductive answer : Type :=
  | Answer (r : response)
  | NotFound.

(** The integers the database takes as a key: 64 bits, signed. *)
Definition sqlite_integer (n : Z) : bool :=
  (- 2 ^ 63 <=? n) && (n <? 2 ^ 63).

(** [delete_goal]: [get_or_404] looks the row up by its primary key, and the
    session deletes the rows with that key.  The converter [int] of the URL
    takes any sequence of digits; the query raises [OverflowError] at a key
    the database cannot take, and the request ends with status 500. *)
Definition delete_goal (id : Z) (st : db) : answer * db :=
  if negb (sqlite_integer id) then
    (Answer (InternalServerError OverflowError), st)
  else
    match list_find (fun g => goal_id g = id) (db_goals st) with
    | None => (NotFound, st)
    | Some (_, g) =>
      (Answer (Redirect "goals" "Goal removed" "info"),
       mkdb (db_events st)
            (filter (fun g' => goal_id g' ≠ goal_id g) (db_goals st)))
    end.

(** * The vocabulary of the properties *)

(** What [add_event] checks before it stores a row. *)
Definition validated (position event_type : string) : Prop :=
  position = "field" ∧ event_type ∈ OUTFIELD_TYPES
  ∨ position = "keeper" ∧ event_type ∈ KEEPER_TYPES.

(** [a <= b] on dates, by year, then month, then day. *)
Definition date_le (a b : date) : Prop :=
  year a < year b
  ∨ year a = year b ∧ (month a < month b ∨ month a = month b ∧ day a <= day b).

#[global] Instance date_le_dec a b : Decision (date_le a b).
Proof. unfold date_le. apply _. Defined.

(** The key of a row in [by_date]. *)
Definition day_of (e : Event) : string := isoformat (datetime_date (timestamp e)).

Definition field_goal (e : Event) : Prop :=
  position e = "field"
  ∧ (event_type e = "goal" ∨ event_type e = "shot" ∧ scored e = true).

Definition field_shot (e : Event) : Prop :=
  position e = "field" ∧ event_type e = "shot".

#[global] Instance field_goal_dec e : Decision (field_goal e).
Proof. unfold field_goal. apply _. Defined.

#[global] Instance field_shot_dec e : Decision (field_shot e).
Proof. unfold field_shot. apply _. Defined.

(** The number of rows of [events] with the key [s] that satisfy [P]. *)
Definition count_on (P : Event → Prop) `{!∀ e, Decision (P e)}
    (s : string) (events : list Event) : Z :=
  Z.of_nat (length (filter (fun e => day_of e = s ∧ P e) events)).

(** The two counts [by_date] holds for a day, 0 for a day that is no key. *)
Definition goals_at (m : gmap string day_counts) (s : string) : Z :=
  day_goals (default by_date_default (m !! s)).

Definition shots_at (m : gmap string day_counts) (s : string) : Z :=
  day_shots (default by_date_default (m !! s)).

(** A guarded percentage of [stats], as it is reported: [None] for a zero
    denominator, else [round(num / den * 100, 2)]. *)
Definition reported_percentage (num den : Z) : option float :=
  if den =? 0 then None
  else Some (Binary64.round2
               (Binary64.mul (Binary64.fl (inject_Z num / inject_Z den))
                             (Binary64.of_int 100))).

(** [num / den * 100] as [stats] computes it, in binary64. *)
Definition percent_float (num den : Z) : float :=
  Binary64.mul (Binary64.fl (inject_Z num / inject_Z den)) (Binary64.of_int 100).

(** Half a unit in the last place, relative to the number: [2 ^ (-53)]. *)
Definition eps : Q := (1 # 9007199254740992)%Q.

(** The rules by which a decimal rounding may settle a tie. *)
Inductive tie_rule : Type := HalfEven | HalfUp | HalfDown.

Definition nearest (t : tie_rule) (q : Q) : Z :=
  match t with
  | HalfEven => Binary64.rne q
  | HalfUp => Qfloor (q + (1 # 2))
  | HalfDown => Qceiling (q - (1 # 2))
  end.

(** After the spec's words: the exact ratio times 100, rounded to two
    decimal places, as the float that decimal denotes. *)
Definition exact_percentage_2dp (t : tie_rule) (num den : Z) : float :=
  Binary64.literal2 (nearest t (inject_Z num / inject_Z den * 100 * 100)).

(** An exact ratio times 100 that is not halfway between two neighbouring
    multiples of 0.01: [100 * num / den] is no [(2 * j + 1) / 200]. *)
Definition off_tie (num den : Z) : Prop :=
  ∀ j, 20000 * num ≠ (2 * j + 1) * den.

(** A keeper row of type [goal], which [add_event] refuses to store. *)
Definition keeper_goal_row : Event :=
  mkEvent 1 (mkdatetime 2024 1 2 10 0 0 0) "keeper" "goal" false false None.

(** Two saves against one shot on goal. *)
Definition two_saves_one_shot : list Event :=
  let t := mkdatetime 2024 1 2 10 0 0 0 in
  [mkEvent 1 t "keeper" "shot_on_goal_against" false false None;
   mkEvent 2 t "keeper" "save" false false None;
   mkEvent 3 t "keeper" "save" false false None].

(** [n] field shots of which the first [k] are on target. *)
Definition shots_on_target (k n : nat) : list Event :=
  let t := mkdatetime 2024 1 2 10 0 0 0 in
  repeat (mkEvent 1 t "field" "shot" true false None) k
  ++ repeat (mkEvent 1 t "field" "shot" false false None) (n - k).

(** Three field shots, one of them scored. *)
Definition one_goal_three_shots : list Event :=
  let t := mkdatetime 2024 1 2 10 0 0 0 in
  [mkEvent 1 t "field" "shot" true true None;
   mkEvent 2 t "field" "shot" false false None;
   mkEvent 3 t "field" "shot" true false None].

(** Two field goals, the later one stored first. *)
Definition goals_on_two_days : list Event :=
  [mkEvent 1 (mkdatetime 2024 1 2 10 0 0 0) "field" "goal" false false None;
   mkEvent 2 (mkdatetime 2023 12 31 18 30 0 0) "field" "goal" false false None].

(** The requests that write the database. *)
Inductive request : Type :=
  | AddEvent (m : method) (form : gmap string string) (utcnow : datetime)
  | Goals (m : method) (form : gmap string string) (utcnow : datetime)
  | DeleteGoal (id : Z)
  | AdminClear.

Definition serve (float_of_str : string → option pyfloat) (st : db)
    (req : request) : db :=
  match req with
  | AddEvent m form utcnow => (add_event m form utcnow st).2
  | Goals m form utcnow => (goals float_of_str m form utcnow st).2
  | DeleteGoal id => (delete_goal id st).2
  | AdminClear => (admin_clear st).2
  end.

(** The store after a sequence of requests, from the empty database. *)
Definition store_after (float_of_str : string → option pyfloat)
    (reqs : list request) : db :=
  foldl (serve float_of_str) (mkdb [] []) reqs.

(** Scenario A: a scored shot on target and a missed shot off target. *)
Definition scenario_A : list Event :=
  let t := mkdatetime 2024 1 2 10 0 0 0 in
  [mkEvent 1 t "field" "shot" true true None;
   mkEvent 2 t "field" "shot" false false None].

(** Scenario B: four shots on goal against, three saves, one goal conceded. *)
Definition scenario_B : list Event :=
  let t := mkdatetime 2024 1 2 10 0 0 0 in
  repeat (mkEvent 1 t "keeper" "shot_on_goal_against" false false None) 4
  ++ repeat (mkEvent 1 t "keeper" "save" false false None) 3
  ++ [mkEvent 1 t "keeper" "concede" false false None].

(** *** binary64 after the Standard Library

    [SpecFloat] specifies the IEEE 754 operations on sign, mantissa and
    exponent; at [prec = 53] and [emax = 1024] they are those of binary64. *)
Definition SF_of_Z (n : Z) : spec_float := binary_normalize 53 1024 n 0 false.

(** The rational a finite [spec_float] denotes, in lowest terms. *)
Definition SF2Q (x : spec_float) : option Q :=
  match x with
  | S754_zero _ => Some 0%Q
  | S754_finite s m e =>
      Some (Qred ((if s then -1 else 1) * inject_Z (Z.pos m) * 2 ^ e)%Q)
  | S754_infinity _ | S754_nan => None
  end.

(** [num / den * 100] by the operations of [SpecFloat]. *)
Definition SF_percent (num den : Z) : spec_float :=
  SFmul 53 1024 (SFdiv 53 1024 (SF_of_Z num) (SF_of_Z den)) (SF_of_Z 100).

Definition same_value (x : spec_float) (q : Q) : bool :=
  match SF2Q x with
  | Some p => (Qnum p =? Qnum q) && Pos.eqb (Qden p) (Qden q)
  | None => false
  end.

(** [0, 1, ..., n - 1] *)
Definition upto (n : nat) : list Z := Z.of_nat <$> seq 0 n.

(** [sum(xs)] for a list of [int]. *)
Definition sum_Z (xs : list Z) : Z := foldr Z.add 0 xs.

(** *** Texts by their characters *)

(** The code points of Unicode. *)
Definition code_point (c : N) : Prop := (c < 0x110000)%N.

(** The UTF-8 encoding of one character. *)
Definition utf8_char (c : N) : string :=
  let byte n := ascii_of_N n in
  (if c <? 0x80 then String (byte c) ""
   else if c <? 0x800 then
     String (byte (0xC0 + c / 64)) (String (byte (0x80 + c mod 64)) "")
   else if c <? 0x10000 then
     String (byte (0xE0 + c / 4096))
       (String (byte (0x80 + c / 64 mod 64)) (String (byte (0x80 + c mod 64)) ""))
   else
     String (byte (0xF0 + c / 262144))
       (String (byte (0x80 + c / 4096 mod 64))
          (String (byte (0x80 + c / 64 mod 64))
             (String (byte (0x80 + c mod 64)) ""))))%N.

(** The [str] with the characters [text]. *)
Definition utf8 (text : list N) : string :=
  foldr (fun c s => utf8_char c +:+ s) "" text.

(** The text from its first character that is not white space. *)
Fixpoint skip_spaces (text : list N) : list N :=
  match text with
  | c :: rest => if py_isspace c then skip_spaces rest else text
  | [] => []
  end.

(** The text up to its last character that is not white space. *)
Fixpoint skip_spaces_right (text : list N) : list N :=
  match text with
  | c :: rest =>
      if forallb py_isspace text then [] else c :: skip_spaces_right rest
  | [] => []
  end.

(** The text without the white space at its two ends. *)
Definition trim (text : list N) : list N :=
  reverse (skip_spaces (reverse (skip_spaces text))).

(** Whether the first, or the last, character of a text is white space. *)
Definition starts_with_space (text : list N) : Prop :=
  ∃ c, head text = Some c ∧ py_isspace c = true.

Definition ends_with_space (text : list N) : Prop :=
  ∃ c, last text = Some c ∧ py_isspace c = true.

(** The keys below the largest integer of the database. *)
Definition keys_below_max (ids : list Z) : Prop :=
  Forall (fun i => i < 2 ^ 63 - 1) ids.

(** The keys of each table are distinct and positive. *)
Definition keys_ok (st : db) : Prop :=
  NoDup (event_id <$> db_events st) ∧ Forall (fun i => 1 <= i) (event_id <$> db_events st)
  ∧ NoDup (goal_id <$> db_goals st) ∧ Forall (fun i => 1 <= i) (goal_id <$> db_goals st).

(** The six counters by event type, and the rows of type [goal]. *)
Definition typed_rows (events : list Event) : Z :=
  sum_ones (fun e =>
    String.eqb (position e) "field" && String.eqb (event_type e) "shot") events
  + sum_ones (fun e =>
      String.eqb (position e) "field" && String.eqb (event_type e) "assist") events
  + sum_ones (fun e =>
      String.eqb (position e) "field" && String.eqb (event_type e) "pass") events
  + sum_ones (fun e =>
      String.eqb (position e) "keeper"
      && String.eqb (event_type e) "shot_on_goal_against") events
  + sum_ones (fun e =>
      String.eqb (position e) "keeper" && String.eqb (event_type e) "save") events
  + sum_ones (fun e =>
      String.eqb (position e) "keeper" && String.eqb (event_type e) "concede") events.

(** Moves [inject_Z] to the leaves of a sum of products. *)
Ltac push_inject :=
  repeat (rewrite inject_Z_plus || rewrite inject_Z_mult).

(** Linear arithmetic over [N] with the quotients and remainders by
    constants that occur in the goal. *)
Ltac euclid_step a b :=
  pose proof (N.div_mod a b ltac:(discriminate));
  pose proof (N.mod_lt a b ltac:(discriminate));
  generalize dependent (a mod b)%N; intros ?;
  generalize dependent (a / b)%N; intros ?.

Ltac euclid :=
  repeat match goal with
         | |- context [(?a / ?b)%N] => euclid_step a b
         | |- context [(?a mod ?b)%N] => euclid_step a b
         | H : context [(?a / ?b)%N] |- _ => euclid_step a b
         | H : context [(?a mod ?b)%N] |- _ => euclid_step a b
         end; intros; lia.

(** * Properties *)

(** ** Counting *)

Section Counting.
Context {A : Type}.
Implicit Types (c : A → bool) (l : list A).

Lemma sum_ones_foldl c l acc :
  foldl (fun acc e => if c e then acc + 1 else acc) acc l
  = acc + Z.of_nat (length (List.filter c l)).
Proof.
  revert acc. induction l as [|x l IH]; intros acc; simpl.
  - lia.
  - rewrite IH. destruct (c x); simpl; lia.
Qed.

Lemma sum_ones_length c l : sum_ones c l = Z.of_nat (length (List.filter c l)).
Proof. unfold sum_ones. rewrite sum_ones_foldl. lia. Qed.

Lemma sum_ones_nil c : sum_ones c [] = 0.
Proof. reflexivity. Qed.

Lemma sum_ones_app c l1 l2 : sum_ones c (l1 ++ l2) = sum_ones c l1 + sum_ones c l2.
Proof. rewrite !sum_ones_length, List.filter_app, length_app. lia. Qed.

Lemma sum_ones_cons c x l :
  sum_ones c (x :: l) = (if c x then 1 else 0) + sum_ones c l.
Proof. rewrite !sum_ones_length. simpl. destruct (c x); simpl; lia. Qed.

Lemma sum_ones_nonneg c l : 0 <= sum_ones c l.
Proof. rewrite sum_ones_length. lia. Qed.

Lemma sum_ones_le_length c l : sum_ones c l <= Z.of_nat (length l).
Proof.
  rewrite sum_ones_length. pose proof (List.filter_length_le c l). lia.
Qed.

(** A stronger condition counts fewer rows. *)
Lemma sum_ones_mono c1 c2 l :
  (∀ x, c1 x = true → c2 x = true) → sum_ones c1 l <= sum_ones c2 l.
Proof.
  intros Himp. induction l as [|x l IH]; [done|].
  rewrite !sum_ones_cons. specialize (Himp x).
  destruct (c1 x), (c2 x); first [lia | naive_solver].
Qed.

(** A row more never lowers a count, wherever it is put. *)
Lemma sum_ones_insert c l1 x l2 :
  sum_ones c (l1 ++ l2) <= sum_ones c (l1 ++ x :: l2).
Proof. rewrite !sum_ones_app, sum_ones_cons. destruct (c x); lia. Qed.

(** The count written with a decidable proposition. *)
Lemma sum_ones_filter c (P : A → Prop) `{!∀ x, Decision (P x)} l :
  (∀ x, c x = true ↔ P x) → sum_ones c l = Z.of_nat (length (filter P l)).
Proof.
  intros Hc. rewrite sum_ones_length. f_equal.
  induction l as [|x l IH]; [done|]. simpl. rewrite filter_cons.
  pose proof (Hc x) as [Hx1 Hx2].
  destruct (c x); case_decide; simpl; try congruence.
  - exfalso. auto.
  - exfalso. specialize (Hx2 ltac:(done)). done.
Qed.

End Counting.

(** ** The conditions of the generator expressions as propositions *)

Lemma field_shot_iff e :
  String.eqb (position e) "field" && String.eqb (event_type e) "shot" = true
  ↔ position e = "field" ∧ event_type e = "shot".
Proof. rewrite andb_true_iff, !String.eqb_eq. done. Qed.

Lemma field_goal_iff e :
  String.eqb (position e) "field"
  && (String.eqb (event_type e) "goal"
      || String.eqb (event_type e) "shot" && scored e) = true
  ↔ position e = "field"
    ∧ (event_type e = "goal" ∨ event_type e = "shot" ∧ scored e = true).
Proof. rewrite andb_true_iff, orb_true_iff, andb_true_iff, !String.eqb_eq. done. Qed.

(** ** What [stats] computes *)

Lemma truediv_truthy a b :
  int_truthy b = true →
  Binary64.truediv a b = Ok (Binary64.fl (inject_Z a / inject_Z b)).
Proof.
  unfold int_truthy, Binary64.truediv. intros Hb.
  destruct (b =? 0); [done|reflexivity].
Qed.

(** No guarded division raises. *)
Lemma guarded_percentage_ok num den :
  (if int_truthy den then
     q ← Binary64.truediv num den;
     mret (Some (Binary64.mul q (Binary64.of_int 100)))
   else mret None)
  = Ok (if den =? 0 then None
        else Some (Binary64.mul (Binary64.fl (inject_Z num / inject_Z den))
                                (Binary64.of_int 100))).
Proof.
  destruct (int_truthy den) eqn:Hden.
  - rewrite truediv_truthy by done. unfold int_truthy in Hden.
    destruct (den =? 0); [done|reflexivity].
  - unfold int_truthy in Hden. destruct (den =? 0); [reflexivity|done].
Qed.

Lemma compute_goal_progress_ok metric target events utcnow :
  ∃ p, compute_goal_progress metric target events utcnow = Ok p.
Proof.
  unfold compute_goal_progress.
  destruct (String.eqb metric "goals_per_week"); [by eexists|].
  destruct (String.eqb metric "save_percentage").
  - match goal with |- context [int_truthy ?d] => destruct (int_truthy d) eqn:Hd end.
    + rewrite truediv_truthy by done. by eexists.
    + by eexists.
  - destruct (String.eqb metric "shots_per_training"); by eexists.
Qed.

Lemma mapM_result_ok {A B : Type} (f : A → result B) (l : list A) :
  (∀ x, ∃ y, f x = Ok y) → ∃ ys, mapM f l = Ok ys.
Proof.
  intros Hf. induction l as [|x l [ys IH]]; simpl.
  - by eexists.
  - destruct (Hf x) as [y ->]. simpl. rewrite IH. by eexists.
Qed.

(** [stats] returns, for every list of rows, and its fields are these. *)
Lemma stats_returns events goals clock :
  ∃ gp, stats events goals clock = Ok (mk_stats_page
    (sum_ones (fun e =>
       String.eqb (position e) "field" && String.eqb (event_type e) "shot") events)
    (sum_ones (fun e =>
       String.eqb (position e) "field" && String.eqb (event_type e) "shot"
       && on_target e) events)
    (sum_ones (fun e =>
       String.eqb (position e) "field"
       && (String.eqb (event_type e) "goal"
           || String.eqb (event_type e) "shot" && scored e)) events)
    (sum_ones (fun e =>
       String.eqb (position e) "field" && String.eqb (event_type e) "assist") events)
    (sum_ones (fun e =>
       String.eqb (position e) "field" && String.eqb (event_type e) "pass") events)
    (reported_percentage
       (sum_ones (fun e =>
          String.eqb (position e) "field"
          && (String.eqb (event_type e) "goal"
              || String.eqb (event_type e) "shot" && scored e)) events)
       (sum_ones (fun e =>
          String.eqb (position e) "field" && String.eqb (event_type e) "shot") events))
    (reported_percentage
       (sum_ones (fun e =>
          String.eqb (position e) "field" && String.eqb (event_type e) "shot"
          && on_target e) events)
       (sum_ones (fun e =>
          String.eqb (position e) "field" && String.eqb (event_type e) "shot") events))
    (sum_ones (fun e =>
       String.eqb (position e) "keeper"
       && String.eqb (event_type e) "shot_on_goal_against") events)
    (sum_ones (fun e =>
       String.eqb (position e) "keeper" && String.eqb (event_type e) "save") events)
    (reported_percentage
       (sum_ones (fun e =>
          String.eqb (position e) "keeper" && String.eqb (event_type e) "save") events)
       (sum_ones (fun e =>
          String.eqb (position e) "keeper"
          && String.eqb (event_type e) "shot_on_goal_against") events))
    (sum_ones (fun e =>
       String.eqb (position e) "keeper" && String.eqb (event_type e) "concede") events)
    gp
    (chart_of events)).
Proof.
  unfold stats. rewrite !guarded_percentage_ok. simpl.
  match goal with |- context [mapM ?f ?l] =>
    destruct (mapM_result_ok f l) as [gp ->] end.
  - intros [i g]. simpl.
    destruct (compute_goal_progress_ok (metric g) (target g) events (clock i))
      as [p ->].
    by eexists.
  - exists gp. simpl. unfold reported_percentage.
    repeat match goal with |- context [?d =? 0] => destruct (d =? 0) end;
      reflexivity.
Qed.

(** ** Validation at the boundary *)

Lemma str_in_iff x t : str_in x t = true ↔ x ∈ t.
Proof.
  unfold str_in. rewrite existsb_exists, list_elem_of_In. split.
  - intros (y & Hin & Heq). apply String.eqb_eq in Heq. by subst.
  - intros Hin. exists x. split; [done|]. apply String.eqb_refl.
Qed.

Lemma str_in_false_iff x t : str_in x t = false ↔ x ∉ t.
Proof. rewrite <- str_in_iff. destruct (str_in x t); naive_solver. Qed.

(** A row of type [goal] that passed the validation is a field row. *)
Lemma validated_goal_field position :
  validated position "goal" → position = "field".
Proof.
  intros [[-> _]|[_ Hin]]; [done|].
  apply str_in_iff in Hin. discriminate Hin.
Qed.

Lemma filter_length_mono {A : Type} (P Q : A → Prop)
    `{!∀ x, Decision (P x)} `{!∀ x, Decision (Q x)} (l : list A) :
  Forall (fun x => P x → Q x) l → (length (filter P l) <= length (filter Q l))%nat.
Proof.
  induction 1 as [|x l Hx _ IH]; [done|].
  rewrite !filter_cons. repeat case_decide; simpl; try lia. naive_solver.
Qed.

(** Among validated rows, a row of type [goal] is counted by [total_goals]. *)
Lemma goal_rows_le_field_goals (events : list Event) :
  Forall (fun e => validated (position e) (event_type e)) events →
  (length (filter (fun e => event_type e = "goal") events)
   <= length (filter (fun e =>
        position e = "field"
        ∧ (event_type e = "goal" ∨ event_type e = "shot" ∧ scored e = true))
        events))%nat.
Proof.
  intros Hvalid. apply filter_length_mono.
  eapply Forall_impl; [exact Hvalid|]. simpl. intros e He Hgoal.
  rewrite Hgoal in He. apply validated_goal_field in He. auto.
Qed.

(** What [add_event] does to the store: nothing, or one validated row more. *)
Lemma add_event_store m (form : gmap string string) utcnow st :
  (add_event m form utcnow st).2 = st
  ∨ ∃ ev, (add_event m form utcnow st).2 = mkdb (db_events st ++ [ev]) (db_goals st)
          ∧ validated (position ev) (event_type ev).
Proof.
  unfold add_event. destruct m; [by left|].
  destruct (form !! "position") as [p|]; [|by left].
  destruct (form !! "event_type") as [t|]; [|by left].
  destruct (str_in p ["field"; "keeper"]) eqn:Hpos; simpl; [|by left].
  destruct (String.eqb_spec p "field") as [->|Hf]; simpl.
  - destruct (str_in t OUTFIELD_TYPES) eqn:Hty; simpl; [|by left].
    right. eexists. split; [reflexivity|]. left. simpl.
    split; [done|]. by apply str_in_iff.
  - destruct (String.eqb_spec p "keeper") as [->|Hk]; simpl.
    + destruct (str_in t KEEPER_TYPES) eqn:Hty; simpl; [|by left].
      right. eexists. split; [reflexivity|]. right. simpl.
      split; [done|]. by apply str_in_iff.
    + apply str_in_iff in Hpos. set_solver.
Qed.

(** ** C1: [total_goals] *)

(** The validation matters: over the one row [keeper_goal_row], which the
    columns of [Event] allow and [add_event] refuses to store, [total_goals]
    is 0 while one row has [event_type == goal]. *)
Lemma total_goals_below_goal_rows :
  ∃ r, stats [keeper_goal_row] [] (fun _ => mkdatetime 2024 1 2 10 0 0 0) = Ok r
    ∧ total_goals r = 0
    ∧ length (filter (fun e => event_type e = "goal") [keeper_goal_row]) = 1%nat.
Proof. eexists. split; [vm_compute; reflexivity|]. split; reflexivity. Qed.

(** C1: for every list of rows, [total_goals] is the number of rows with
    [position == field] and ([event_type == goal] or [event_type == shot]
    with [scored]); hence it is at least the number of field rows with
    [event_type == goal], and, over rows that satisfy the validation of
    [add_event], as all the rows do that the routes store, at least the
    number of rows with [event_type == goal]. *)
Theorem total_goals_counts events goals clock :
  ∃ r, stats events goals clock = Ok r
    ∧ total_goals r
      = Z.of_nat (length (filter (fun e =>
          position e = "field"
          ∧ (event_type e = "goal" ∨ event_type e = "shot" ∧ scored e = true))
          events))
    ∧ Z.of_nat (length (filter (fun e =>
          position e = "field" ∧ event_type e = "goal") events))
      <= total_goals r
    ∧ (Forall (fun e => validated (position e) (event_type e)) events →
       Z.of_nat (length (filter (fun e => event_type e = "goal") events))
       <= total_goals r).
Proof.
  destruct (stats_returns events goals clock) as [gp ->].
  eexists. split; [reflexivity|]. simpl.
  rewrite (sum_ones_filter _ _ _ field_goal_iff).
  split; [reflexivity|]. split.
  - apply inj_le, filter_length_mono, Forall_forall.
    intros e _ [Hfield Hgoal]. auto.
  - intros Hvalid. apply inj_le, goal_rows_le_field_goals, Hvalid.
Qed.

(** The hypothesis of [total_goals_counts] holds of a stored list of a field
    goal and a scored field shot; both count. *)
Lemma total_goals_counts_witness :
  let t := mkdatetime 2024 1 2 10 0 0 0 in
  let events := [mkEvent 1 t "field" "goal" false false None;
                 mkEvent 2 t "field" "shot" true true None] in
  Forall (fun e => validated (position e) (event_type e)) events
  ∧ ∃ r, stats events [] (fun _ => t) = Ok r
      ∧ Z.of_nat (length (filter (fun e => event_type e = "goal") events))
        <= total_goals r.
Proof.
  intros t events. split.
  - repeat constructor; left; (split; [reflexivity|]);
      apply str_in_iff; reflexivity.
  - destruct (total_goals_counts events [] (fun _ => t))
      as (r & Hr & _ & _ & Hle).
    exists r. split; [exact Hr|]. apply Hle.
    repeat constructor; left; (split; [reflexivity|]);
      apply str_in_iff; reflexivity.
Defined.

(** ** C6: [add_event] stores exactly the validated submissions *)

(** C6: a POST to [/add] is accepted (answered with the success redirect, the
    store extended by one row carrying the submitted position and event type)
    if and only if the form gives a position and an event type that pass
    [validated]; any other POST, and every GET, leaves the store as it was. *)
Theorem add_event_accepts_iff (form : gmap string string) utcnow st :
  ((∃ ev, add_event POST form utcnow st
          = (Redirect "index" "Event added!" "success",
             mkdb (db_events st ++ [ev]) (db_goals st))
          ∧ form !! "position" = Some (position ev)
          ∧ form !! "event_type" = Some (event_type ev))
   ↔ ∃ p t, form !! "position" = Some p ∧ form !! "event_type" = Some t
            ∧ validated p t)
  ∧ ((¬ ∃ p t, form !! "position" = Some p ∧ form !! "event_type" = Some t
               ∧ validated p t)
     → (add_event POST form utcnow st).2 = st
       ∧ ∀ f c, (add_event POST form utcnow st).1 ≠ Redirect "index" f c)
  ∧ (add_event GET form utcnow st).2 = st.
Proof.
  unfold add_event.
  destruct (form !! "position") as [p|] eqn:Hp; cycle 1.
  { split; [|split]; [split| |reflexivity].
    - intros (ev & Hout & _). discriminate Hout.
    - intros (p & t & Hp' & _). discriminate Hp'.
    - intros _. split; [reflexivity|]. simpl. discriminate. }
  destruct (form !! "event_type") as [t|] eqn:Ht; cycle 1.
  { split; [|split]; [split| |reflexivity].
    - intros (ev & Hout & _). discriminate Hout.
    - intros (p' & t & _ & Ht' & _). discriminate Ht'.
    - intros _. split; [reflexivity|]. simpl. discriminate. }
  destruct (str_in p ["field"; "keeper"]) eqn:Hpos; simpl.
  - apply str_in_iff in Hpos.
    assert (p = "field" ∨ p = "keeper") as Hcases.
    { apply elem_of_cons in Hpos as [->|Hpos]; [by left|].
      apply list_elem_of_singleton in Hpos. by right. }
    destruct Hcases as [-> | ->]; simpl.
    + destruct (str_in t OUTFIELD_TYPES) eqn:Hty; simpl.
      * apply str_in_iff in Hty.
        split; [|split]; [split| |reflexivity].
        -- intros _. exists "field", t. repeat split. by left.
        -- intros _. eexists. split; [reflexivity|]. simpl. done.
        -- intros Hno. exfalso. apply Hno. exists "field", t.
           repeat split. by left.
      * apply str_in_false_iff in Hty.
        split; [|split]; [split| |reflexivity].
        -- intros (ev & Hout & _). discriminate Hout.
        -- intros (p' & t' & Hp' & Ht' & [[_ Hin]|[Hk _]]); simplify_eq;
             contradiction.
        -- intros _. split; [reflexivity|]. simpl. discriminate.
    + destruct (str_in t KEEPER_TYPES) eqn:Hty; simpl.
      * apply str_in_iff in Hty.
        split; [|split]; [split| |reflexivity].
        -- intros _. exists "keeper", t. repeat split. by right.
        -- intros _. eexists. split; [reflexivity|]. simpl. done.
        -- intros Hno. exfalso. apply Hno. exists "keeper", t.
           repeat split. by right.
      * apply str_in_false_iff in Hty.
        split; [|split]; [split| |reflexivity].
        -- intros (ev & Hout & _). discriminate Hout.
        -- intros (p' & t' & Hp' & Ht' & [[Hf _]|[_ Hin]]); simplify_eq;
             contradiction.
        -- intros _. split; [reflexivity|]. simpl. discriminate.
  - apply str_in_false_iff in Hpos.
    split; [|split]; [split| |reflexivity].
    + intros (ev & Hout & _). discriminate Hout.
    + intros (p' & t' & Hp' & Ht' & [[Hf _]|[Hk _]]); simplify_eq;
        exfalso; apply Hpos; set_solver.
    + intros _. split; [reflexivity|]. simpl. discriminate.
Qed.

(** ** C8: the summary of [api_stats] *)

(** C8: for every list of rows, the dictionary of [api_stats] has exactly the
    keys [total_shots], [total_goals], [total_assists] and [keeper_saves], and
    their values are the fields [total_shots], [total_goals], [total_assists]
    and [saves] that [stats] computes over the same rows. *)
Theorem api_stats_agrees_with_stats events goals clock :
  ∃ r, stats events goals clock = Ok r
    ∧ api_stats events !! "total_shots" = Some (total_shots r)
    ∧ api_stats events !! "total_goals" = Some (total_goals r)
    ∧ api_stats events !! "total_assists" = Some (total_assists r)
    ∧ api_stats events !! "keeper_saves" = Some (saves r)
    ∧ dom (api_stats events)
      = ({["total_shots"; "total_goals"; "total_assists"; "keeper_saves"]}
         : gset string).
Proof.
  destruct (stats_returns events goals clock) as [gp ->].
  eexists. split; [reflexivity|]. unfold api_stats. simpl.
  split; [|split; [|split; [|split]]].
  - apply lookup_insert_eq.
  - rewrite lookup_insert_ne by done. apply lookup_insert_eq.
  - rewrite !lookup_insert_ne by done. apply lookup_insert_eq.
  - rewrite !lookup_insert_ne by done. apply lookup_insert_eq.
  - rewrite !dom_insert_L, dom_empty_L. set_solver.
Qed.

(** ** C10: the counts are monotone *)

(** C10: for every list of rows and every further row, put anywhere in the
    list, each of the eight counts of [stats] over the longer list is at least
    the count over the shorter one. *)
Theorem counts_monotone l1 e l2 goals clock goals' clock' :
  ∃ r r', stats (l1 ++ l2) goals clock = Ok r
    ∧ stats (l1 ++ e :: l2) goals' clock' = Ok r'
    ∧ total_shots r <= total_shots r'
    ∧ total_on_target r <= total_on_target r'
    ∧ total_goals r <= total_goals r'
    ∧ total_assists r <= total_assists r'
    ∧ total_passes r <= total_passes r'
    ∧ shots_on_against r <= shots_on_against r'
    ∧ saves r <= saves r'
    ∧ goals_allowed r <= goals_allowed r'.
Proof.
  destruct (stats_returns (l1 ++ l2) goals clock) as [gp ->].
  destruct (stats_returns (l1 ++ e :: l2) goals' clock') as [gp' ->].
  do 2 eexists. split; [reflexivity|]. split; [reflexivity|]. simpl.
  repeat split; apply sum_ones_insert.
Qed.

(** ** C4 and C5: [compute_goal_progress] *)

Lemma date_ge_iff a b : date_ge a b = true ↔ date_le b a.
Proof.
  unfold date_ge, date_cmp, date_le.
  destruct (Z.compare_spec (year a) (year b));
    destruct (Z.compare_spec (month a) (month b));
    destruct (Z.compare_spec (day a) (day b)); split; (done || lia).
Qed.

Lemma goals_per_week_cond_iff cutoff e :
  String.eqb (position e) "field"
  && (String.eqb (event_type e) "goal"
      || String.eqb (event_type e) "shot" && scored e)
  && date_ge (datetime_date (timestamp e)) cutoff = true
  ↔ position e = "field"
    ∧ (event_type e = "goal" ∨ event_type e = "shot" ∧ scored e = true)
    ∧ date_le cutoff (datetime_date (timestamp e)).
Proof. rewrite andb_true_iff, field_goal_iff, date_ge_iff. tauto. Qed.

(** C4: for every list of rows and every reading of the clock, the progress
    of [goals_per_week] is the number of field rows that are goals or scored
    shots and whose date is today's date or later; a row dated before today
    counts for nothing, however recent (no window of seven days). *)
Theorem goals_per_week_counts_from_today target events utcnow :
  compute_goal_progress "goals_per_week" target events utcnow
  = Ok (PInt (Z.of_nat (length (filter (fun e =>
      position e = "field"
      ∧ (event_type e = "goal" ∨ event_type e = "shot" ∧ scored e = true)
      ∧ date_le (datetime_date utcnow) (datetime_date (timestamp e)))
      events))))
  ∧ ∀ e, ¬ date_le (datetime_date utcnow) (datetime_date (timestamp e)) →
         compute_goal_progress "goals_per_week" target [e] utcnow = Ok (PInt 0).
Proof.
  split.
  - unfold compute_goal_progress. simpl. do 2 f_equal.
    rewrite <- sum_ones_length.
    apply sum_ones_filter, goals_per_week_cond_iff.
  - intros e Hbefore. unfold compute_goal_progress. simpl.
    destruct (date_ge _ _) eqn:Hge.
    + apply date_ge_iff in Hge. contradiction.
    + rewrite !andb_false_r. reflexivity.
Qed.

(** C5: for every list of rows, a metric other than [goals_per_week],
    [save_percentage] and [shots_per_training] has the progress [None], and
    nothing is raised. *)
Theorem unknown_metric_is_none metric target events utcnow :
  metric ≠ "goals_per_week" →
  metric ≠ "save_percentage" →
  metric ≠ "shots_per_training" →
  compute_goal_progress metric target events utcnow = Ok PNone.
Proof.
  intros H1 H2 H3. unfold compute_goal_progress.
  apply String.eqb_neq in H1, H2, H3. rewrite H1, H2, H3. reflexivity.
Qed.

(** Scenario C: the metric [unknown_metric]. *)
Lemma unknown_metric_is_none_witness :
  "unknown_metric" ≠ "goals_per_week"
  ∧ "unknown_metric" ≠ "save_percentage"
  ∧ "unknown_metric" ≠ "shots_per_training"
  ∧ compute_goal_progress "unknown_metric" (Finite 5%Q) [keeper_goal_row]
      (mkdatetime 2024 1 2 10 0 0 0) = Ok PNone.
Proof.
  split; [discriminate|]. split; [discriminate|]. split; [discriminate|].
  apply unknown_metric_is_none; discriminate.
Defined.

(** ** binary64 rounding *)

Section Binary64_facts.
Import Binary64.
Local Open Scope Q_scope.

Lemma pow2_pos e : 0 < 2 ^ e.
Proof. apply Qpower_0_lt. reflexivity. Qed.

Lemma pow2_add a b : 2 ^ (a + b) == 2 ^ a * 2 ^ b.
Proof. apply Qpower_plus. discriminate. Qed.

Lemma pow2_le a b : (a <= b)%Z → 2 ^ a <= 2 ^ b.
Proof. intros Hab. apply Qpower_le_compat_l; [exact Hab|]. discriminate. Qed.

Lemma pow2_lt a b : (a < b)%Z → 2 ^ a < 2 ^ b.
Proof. intros Hab. apply Qpower_lt_compat_l; [exact Hab|]. reflexivity. Qed.

Lemma pow2_lt_inv a b : 2 ^ a < 2 ^ b → (a < b)%Z.
Proof.
  intros Hlt. destruct (Z_lt_le_dec a b) as [|Hle]; [done|].
  apply pow2_le in Hle. lra.
Qed.

Lemma pow2_inject (n : Z) : (0 <= n)%Z → inject_Z (2 ^ n) == 2 ^ n.
Proof. intros Hn. rewrite Zpower_Qpower by done. reflexivity. Qed.

Lemma pow2_succ e : 2 ^ (e + 1) == 2 * 2 ^ e.
Proof. rewrite pow2_add. change (2 ^ 1) with 2. ring. Qed.

(** *** The binade of a positive rational *)

Lemma Zlog2_bounds_Q (a : Z) :
  (0 < a)%Z → 2 ^ Z.log2 a <= inject_Z a ∧ inject_Z a < 2 ^ (Z.log2 a + 1).
Proof.
  intros Ha. destruct (Z.log2_spec a Ha) as [Hlo Hhi].
  pose proof (Z.log2_nonneg a) as Hnn.
  rewrite <- !pow2_inject by lia. rewrite <- Zle_Qle, <- Zlt_Qlt.
  replace (Z.log2 a + 1)%Z with (Z.succ (Z.log2 a)) by lia. done.
Qed.

Lemma ilog2_spec q : 0 < q → 2 ^ ilog2 q <= q ∧ q < 2 ^ (ilog2 q + 1).
Proof.
  intros Hq. unfold ilog2.
  destruct q as [a b]. simpl Qnum. simpl Qden.
  assert (0 < a)%Z as Ha.
  { unfold Qlt in Hq. simpl in Hq. lia. }
  destruct (Zlog2_bounds_Q a Ha) as [Ha1 Ha2].
  destruct (Zlog2_bounds_Q (Z.pos b) ltac:(lia)) as [Hb1 Hb2].
  set (la := Z.log2 a) in *. set (lb := Z.log2 (Z.pos b)) in *.
  assert (0 < inject_Z (Z.pos b)) as HB by (rewrite <- (Zlt_Qlt 0); lia).
  assert ((a # b) * inject_Z (Z.pos b) == inject_Z a) as Hab.
  { rewrite Qmake_Qdiv. field. lra. }
  set (A := inject_Z a) in *. set (B := inject_Z (Z.pos b)) in *.
  set (q := a # b) in *.
  assert (2 ^ (la - lb - 1) < q) as Hlow.
  { apply (Qmult_lt_r _ _ B HB). rewrite Hab.
    apply Qlt_le_trans with (2 ^ la); [|done].
    replace la with ((la - lb - 1) + (lb + 1))%Z at 2 by lia.
    rewrite (pow2_add (la - lb - 1)).
    apply Qmult_lt_l; [apply pow2_pos|done]. }
  assert (q < 2 ^ (la - lb + 1)) as Hhigh.
  { apply (Qmult_lt_r _ _ B HB). rewrite Hab.
    apply Qlt_le_trans with (2 ^ (la + 1)); [done|].
    replace (la + 1)%Z with ((la - lb + 1) + lb)%Z by lia.
    rewrite (pow2_add (la - lb + 1)).
    apply Qmult_le_l; [apply pow2_pos|done]. }
  destruct (Qle_bool (2 ^ (la - lb)) q) eqn:Hle.
  - apply Qle_bool_iff in Hle. done.
  - split; [apply Qlt_le_weak; done|].
    replace (la - lb - 1 + 1)%Z with (la - lb)%Z by lia.
    apply Qnot_le_lt. intros Hc. apply Qle_bool_iff in Hc. congruence.
Qed.

Lemma ilog2_unique q e : 2 ^ e <= q → q < 2 ^ (e + 1) → ilog2 q = e.
Proof.
  intros Hlo Hhi.
  assert (0 < q) as Hq by (pose proof (pow2_pos e); lra).
  destruct (ilog2_spec q Hq) as [Hlo' Hhi'].
  assert (2 ^ ilog2 q < 2 ^ (e + 1)) as H1 by lra.
  assert (2 ^ e < 2 ^ (ilog2 q + 1)) as H2 by lra.
  apply pow2_lt_inv in H1, H2. lia.
Qed.

Lemma ilog2_le x y : 0 < x → x <= y → (ilog2 x <= ilog2 y)%Z.
Proof.
  intros Hx Hxy.
  destruct (ilog2_spec x Hx) as [Hx1 _].
  destruct (ilog2_spec y ltac:(lra)) as [_ Hy2].
  assert (2 ^ ilog2 x < 2 ^ (ilog2 y + 1)) as H by lra.
  apply pow2_lt_inv in H. lia.
Qed.

Lemma ilog2_comp x y : 0 < x → x == y → ilog2 x = ilog2 y.
Proof.
  intros Hx Hxy. destruct (ilog2_spec x Hx) as [H1 H2]. symmetry.
  apply ilog2_unique; rewrite <- Hxy; done.
Qed.

(** *** Rounding to the nearest integer *)

Lemma rne_cases q :
  let f := Qfloor q in
  (q - inject_Z f < 1 # 2 ∧ rne q = f)
  ∨ (1 # 2 < q - inject_Z f ∧ rne q = (f + 1)%Z)
  ∨ (q - inject_Z f == 1 # 2 ∧ rne q = if Z.even f then f else (f + 1)%Z).
Proof.
  intros f. unfold rne. fold f.
  destruct (Qcompare_spec (q - inject_Z f) (1 # 2)); auto.
Qed.

Lemma Qfloor_bounds q : inject_Z (Qfloor q) <= q ∧ q < inject_Z (Qfloor q) + 1.
Proof.
  split; [apply Qfloor_le|].
  pose proof (Qlt_floor q) as H. rewrite inject_Z_plus in H. exact H.
Qed.

(** [rne q] is within one half of [q]. *)
Lemma rne_near q :
  q - (1 # 2) <= inject_Z (rne q) ∧ inject_Z (rne q) <= q + (1 # 2).
Proof.
  destruct (Qfloor_bounds q) as [Hlo Hhi].
  destruct (rne_cases q) as [[Hc ->]|[[Hc ->]|[Hc ->]]];
    [| |destruct (Z.even (Qfloor q))];
    rewrite ?inject_Z_plus; change (inject_Z 1) with 1; lra.
Qed.

Lemma rne_inject z : rne (inject_Z z) = z.
Proof.
  unfold rne. rewrite Qfloor_Z.
  destruct (Qcompare_spec (inject_Z z - inject_Z z) (1 # 2)) as [H|H|H];
    [lra|done|lra].
Qed.

#[global] Instance rne_comp : Proper (Qeq ==> eq) rne.
Proof.
  intros x y Hxy. unfold rne.
  rewrite (Qfloor_comp x y Hxy).
  rewrite (Qcompare_comp (x - inject_Z (Qfloor y)) (y - inject_Z (Qfloor y))
             ltac:(rewrite Hxy; reflexivity) (1 # 2) (1 # 2) ltac:(reflexivity)).
  reflexivity.
Qed.

Lemma Qfloor_unique q z : inject_Z z <= q → q < inject_Z z + 1 → Qfloor q = z.
Proof.
  intros Hlo Hhi. destruct (Qfloor_bounds q) as [Hlo' Hhi'].
  assert (inject_Z z < inject_Z (Qfloor q + 1)) as H1
    by (rewrite inject_Z_plus; change (inject_Z 1) with 1; lra).
  assert (inject_Z (Qfloor q) < inject_Z (z + 1)) as H2
    by (rewrite inject_Z_plus; change (inject_Z 1) with 1; lra).
  rewrite <- Zlt_Qlt in H1, H2. lia.
Qed.

Lemma rne_le x y : x <= y → (rne x <= rne y)%Z.
Proof.
  intros Hxy. pose proof (Qfloor_resp_le x y Hxy) as Hf.
  destruct (Qfloor_bounds x) as [Hx1 Hx2].
  destruct (Qfloor_bounds y) as [Hy1 Hy2].
  destruct (Z.eq_dec (Qfloor x) (Qfloor y)) as [Heq|Hne].
  - destruct (rne_cases x) as [[Hc ->]|[[Hc ->]|[Hc ->]]];
      destruct (rne_cases y) as [[Hd ->]|[[Hd ->]|[Hd ->]]];
      rewrite <- ?Heq in *; try destruct (Z.even (Qfloor x)); try lia; lra.
  - assert (rne x <= Qfloor x + 1)%Z as H1.
    { destruct (rne_cases x) as [[_ ->]|[[_ ->]|[_ ->]]];
        try destruct (Z.even (Qfloor x)); lia. }
    assert (Qfloor y <= rne y)%Z as H2.
    { destruct (rne_cases y) as [[_ ->]|[[_ ->]|[_ ->]]];
        try destruct (Z.even (Qfloor y)); lia. }
    lia.
Qed.

(** *** [fl] *)

Lemma ulp_pos q : 0 < ulp q.
Proof. apply pow2_pos. Qed.

(** In units of its last place, [q > 0] lies in [[2^52, 2^53)]. *)
Lemma scaled_bounds q :
  0 < q → 2 ^ 52 <= q / ulp q ∧ q / ulp q < 2 ^ 53.
Proof.
  intros Hq. destruct (ilog2_spec q Hq) as [Hlo Hhi].
  pose proof (ulp_pos q) as Hu. unfold ulp, prec in *.
  set (e := ilog2 q) in *. set (u := 2 ^ (e - (53 - 1))) in *.
  assert (2 ^ e == 2 ^ 52 * u) as He.
  { unfold u. rewrite <- pow2_add. f_equiv. lia. }
  assert (2 ^ (e + 1) == 2 ^ 53 * u) as He'.
  { unfold u. rewrite <- pow2_add. f_equiv. lia. }
  split.
  - apply Qle_shift_div_l; [done|]. rewrite <- He. done.
  - apply Qlt_shift_div_r; [done|]. rewrite <- He'. done.
Qed.

Lemma rne_scaled_bounds q :
  0 < q → (2 ^ 52 <= rne (q / ulp q) <= 2 ^ 53)%Z.
Proof.
  intros Hq. destruct (scaled_bounds q Hq) as [Hlo Hhi].
  rewrite <- (rne_inject (2 ^ 52)), <- (rne_inject (2 ^ 53)).
  split; apply rne_le.
  - rewrite pow2_inject by lia. done.
  - rewrite pow2_inject by lia. lra.
Qed.

Lemma fl_pos_value q : fl_pos q == inject_Z (rne (q / ulp q)) * ulp q.
Proof. unfold fl_pos. apply Qred_correct. Qed.

(** A positive number rounds into the closure of its binade. *)
Lemma fl_pos_binade q :
  0 < q → 2 ^ ilog2 q <= fl_pos q ∧ fl_pos q <= 2 ^ (ilog2 q + 1).
Proof.
  intros Hq. rewrite fl_pos_value.
  destruct (rne_scaled_bounds q Hq) as [Hlo Hhi].
  rewrite Zle_Qle in Hlo, Hhi. rewrite !pow2_inject in Hlo, Hhi by lia.
  pose proof (ulp_pos q) as Hu. unfold ulp, prec in *.
  set (e := ilog2 q) in *. set (u := 2 ^ (e - (53 - 1))) in *.
  assert (2 ^ e == 2 ^ 52 * u) as ->.
  { unfold u. rewrite <- pow2_add. f_equiv. lia. }
  assert (2 ^ (e + 1) == 2 ^ 53 * u) as ->.
  { unfold u. rewrite <- pow2_add. f_equiv. lia. }
  split; apply Qmult_le_r; done.
Qed.

Lemma fl_pos_positive q : 0 < q → 0 < fl_pos q.
Proof.
  intros Hq. destruct (fl_pos_binade q Hq) as [Hlo _].
  pose proof (pow2_pos (ilog2 q)). lra.
Qed.

Lemma fl_pos_le x y : 0 < x → x <= y → fl_pos x <= fl_pos y.
Proof.
  intros Hx Hxy. assert (0 < y) as Hy by lra.
  pose proof (ilog2_le x y Hx Hxy) as He.
  destruct (Z.eq_dec (ilog2 x) (ilog2 y)) as [Heq|Hne].
  - rewrite !fl_pos_value. unfold ulp. rewrite <- Heq.
    apply Qmult_le_r; [apply pow2_pos|].
    rewrite <- Zle_Qle. apply rne_le.
    apply Qmult_le_r; [apply Qinv_lt_0_compat, pow2_pos|done].
  - destruct (fl_pos_binade x Hx) as [_ Hhi].
    destruct (fl_pos_binade y Hy) as [Hlo _].
    assert (2 ^ (ilog2 x + 1) <= 2 ^ ilog2 y) by (apply pow2_le; lia).
    lra.
Qed.

Lemma fl_pos_comp x y : 0 < x → x == y → fl_pos x = fl_pos y.
Proof.
  intros Hx Hxy. unfold fl_pos, ulp.
  rewrite (ilog2_comp x y Hx Hxy). apply Qred_complete.
  rewrite Hxy. reflexivity.
Qed.

Lemma fl_of_pos q : 0 < q → fl q = fl_pos q.
Proof.
  intros Hq. unfold fl. destruct (Qcompare_spec q 0); [lra|lra|done].
Qed.

Lemma fl_zero q : q == 0 → fl q = 0.
Proof.
  intros Hq. unfold fl. destruct (Qcompare_spec q 0); [done|lra|lra].
Qed.

Lemma fl_nonneg q : 0 <= q → 0 <= fl q.
Proof.
  intros Hq. destruct (Qle_lt_or_eq _ _ Hq) as [Hpos|Hz].
  - rewrite fl_of_pos by done. apply Qlt_le_weak, fl_pos_positive. done.
  - rewrite fl_zero by (symmetry; done). lra.
Qed.

(** Rounding is monotone. *)
Lemma fl_le x y : 0 <= x → x <= y → fl x <= fl y.
Proof.
  intros Hx Hxy. destruct (Qle_lt_or_eq _ _ Hx) as [Hpos|Hz].
  - rewrite !fl_of_pos by lra. apply fl_pos_le; done.
  - rewrite (fl_zero x) by (symmetry; done). apply fl_nonneg. lra.
Qed.

#[global] Instance fl_comp : Proper (Qeq ==> eq) fl.
Proof.
  intros x y Hxy. unfold fl. rewrite <- Hxy.
  destruct (Qcompare_spec x 0) as [H|H|H]; [done| |].
  - f_equal. f_equal. apply fl_pos_comp; [lra|]. rewrite Hxy. reflexivity.
  - apply fl_pos_comp; done.
Qed.

End Binary64_facts.

(** ** C9 and C2: the guarded percentages *)

Section Percentages.
Import Binary64.
Local Open Scope Q_scope.

Lemma of_int_100 : of_int 100 = 100.
Proof. vm_compute. reflexivity. Qed.

Lemma fl_1 : fl 1 = 1.
Proof. vm_compute. reflexivity. Qed.

Lemma fl_100 : fl 100 = 100.
Proof. vm_compute. reflexivity. Qed.

Lemma mul_100_bounds x b :
  0 <= x → x <= b → 0 <= mul x (of_int 100) ∧ mul x (of_int 100) <= fl (b * 100).
Proof.
  intros Hx Hb. unfold mul. rewrite of_int_100. split.
  - apply fl_nonneg. lra.
  - apply fl_le; lra.
Qed.

Lemma round2_bounds x :
  0 <= x → x <= 100 → 0 <= round2 x ∧ round2 x <= 100.
Proof.
  intros Hlo Hhi. unfold round2.
  assert (0 <= rne (x * 100) <= 10000)%Z as [Hk0 Hk1].
  { rewrite <- (rne_inject 0), <- (rne_inject 10000).
    split; apply rne_le.
    - change (inject_Z 0) with 0. lra.
    - change (inject_Z 10000) with 10000. lra. }
  rewrite Zle_Qle in Hk0, Hk1.
  change (inject_Z 0) with 0 in Hk0. change (inject_Z 10000) with 10000 in Hk1.
  assert (0 <= inject_Z (rne (x * 100)) / 100) as Hq0
    by (apply Qle_shift_div_l; lra).
  assert (inject_Z (rne (x * 100)) / 100 <= 100) as Hq1
    by (apply Qle_shift_div_r; lra).
  split.
  - apply fl_nonneg. done.
  - rewrite <- fl_100. apply fl_le; done.
Qed.

(** A percentage of a part of the whole lies between 0 and 100. *)
Lemma reported_percentage_bounds (num den : Z) x :
  (0 <= num <= den)%Z → reported_percentage num den = Some x →
  0 <= x ∧ x <= 100.
Proof.
  intros [Hnum Hle]. unfold reported_percentage.
  destruct (Z.eqb_spec den 0) as [|Hden]; [done|].
  intros [= <-].
  assert (0 < inject_Z den) as Hd by (rewrite <- (Zlt_Qlt 0); lia).
  assert (0 <= inject_Z num) as Hn by (rewrite <- (Zle_Qle 0); lia).
  assert (inject_Z num <= inject_Z den) as Hnd by (rewrite <- Zle_Qle; lia).
  assert (0 <= inject_Z num / inject_Z den) as Hq0.
  { apply Qle_shift_div_l; [done|]. lra. }
  assert (inject_Z num / inject_Z den <= 1) as Hq1.
  { apply Qle_shift_div_r; [done|]. lra. }
  assert (0 <= fl (inject_Z num / inject_Z den)) as Hf0 by (apply fl_nonneg; done).
  assert (fl (inject_Z num / inject_Z den) <= 1) as Hf1.
  { rewrite <- fl_1. apply fl_le; done. }
  destruct (mul_100_bounds _ 1 Hf0 Hf1) as [Hm0 Hm1].
  change (fl (1 * 100)) with (fl 100) in Hm1. rewrite fl_100 in Hm1.
  apply round2_bounds; done.
Qed.

End Percentages.

(** C9: for every list of rows, [total_on_target] is at most [total_shots],
    and [on_target_percentage], when it is defined, lies between 0 and 100;
    [save_percentage] has no such bound: two saves against one shot on goal
    give 200. *)
Theorem on_target_within_shots :
  (∀ events goals clock,
     ∃ r, stats events goals clock = Ok r
       ∧ total_on_target r <= total_shots r
       ∧ ∀ x, on_target_percentage r = Some x → (0 <= x)%Q ∧ (x <= 100)%Q)
  ∧ ∃ r, stats two_saves_one_shot [] (fun _ => mkdatetime 2024 1 2 10 0 0 0) = Ok r
       ∧ Forall (fun e => validated (position e) (event_type e)) two_saves_one_shot
       ∧ saves r = 2 ∧ shots_on_against r = 1
       ∧ save_percentage r = Some 200%Q.
Proof.
  split.
  - intros events goals clock.
    destruct (stats_returns events goals clock) as [gp ->].
    eexists. split; [reflexivity|]. simpl.
    match goal with |- ?a <= ?b ∧ _ => assert (a <= b) as Hle end.
    { apply sum_ones_mono. intros e He.
      apply andb_true_iff in He as [He _]. exact He. }
    split; [exact Hle|]. intros x Hx.
    eapply reported_percentage_bounds; [|exact Hx].
    split; [apply sum_ones_nonneg|exact Hle].
  - eexists. split; [vm_compute; reflexivity|]. split; [|repeat split].
    repeat constructor; right; (split; [reflexivity|]);
      apply str_in_iff; reflexivity.
Qed.

(** ** C7: rounding to two decimals *)

Section Rounding.
Import Binary64.
Local Open Scope Q_scope.

Lemma ulp_le q : 0 < q → ulp q <= q * (2 # 9007199254740992).
Proof.
  intros Hq. destruct (ilog2_spec q Hq) as [Hlo _]. unfold ulp, prec.
  replace (ilog2 q - (53 - 1))%Z with (ilog2 q + (-52))%Z by lia.
  rewrite pow2_add.
  assert (2 ^ (-52) == 2 # 9007199254740992) as -> by reflexivity.
  apply Qmult_le_r; [reflexivity|done].
Qed.

(** The relative error of one rounding is at most [eps]. *)
Lemma fl_pos_error q :
  0 < q → q - q * eps <= fl_pos q ∧ fl_pos q <= q + q * eps.
Proof.
  intros Hq. rewrite fl_pos_value.
  pose proof (ulp_pos q) as Hu. pose proof (ulp_le q Hq) as Hule.
  destruct (rne_near (q / ulp q)) as [Hlo Hhi].
  set (m := inject_Z (rne (q / ulp q))) in *. set (u := ulp q) in *.
  assert (q / u * u == q) as Hqu by (field; lra).
  apply (Qmult_le_compat_r _ _ u) in Hlo, Hhi; try lra.
  assert ((q / u - (1 # 2)) * u == q - u * (1 # 2)) as Hl
    by (rewrite <- Hqu at 2; ring).
  assert ((q / u + (1 # 2)) * u == q + u * (1 # 2)) as Hr
    by (rewrite <- Hqu at 2; ring).
  rewrite Hl in Hlo. rewrite Hr in Hhi. unfold eps. lra.
Qed.

Lemma fl_error q : 0 <= q → q - q * eps <= fl q ∧ fl q <= q + q * eps.
Proof.
  intros Hq. destruct (Qle_lt_or_eq _ _ Hq) as [Hpos|Hz].
  - rewrite fl_of_pos by done. apply fl_pos_error. done.
  - rewrite fl_zero by (symmetry; done). rewrite <- Hz. unfold eps. lra.
Qed.

(** An integer strictly within one half of [x] is [rne x]. *)
Lemma rne_unique x (k : Z) :
  inject_Z k - (1 # 2) < x → x < inject_Z k + (1 # 2) → rne x = k.
Proof.
  intros Hlo Hhi. destruct (Qlt_le_dec x (inject_Z k)) as [Hlt|Hge].
  - assert (Qfloor x = (k + -1)%Z) as Hf.
    { apply Qfloor_unique; rewrite inject_Z_plus;
        change (inject_Z (-1)) with (-1); lra. }
    destruct (rne_cases x) as [[Hc ->]|[[Hc ->]|[Hc ->]]];
      rewrite Hf in *; rewrite inject_Z_plus in Hc;
      change (inject_Z (-1)) with (-1) in Hc; try lia; lra.
  - assert (Qfloor x = k) as Hf by (apply Qfloor_unique; lra).
    destruct (rne_cases x) as [[Hc ->]|[[Hc ->]|[Hc ->]]];
      rewrite Hf in *; try lia; lra.
Qed.

(** The percentage computed in binary64, times 100, is within a relative
    [3 * eps] of the exact ratio times 10000. *)
Lemma percentage_error (q : Q) :
  0 <= q →
  let p := mul (fl q) (of_int 100) in
  q * 10000 - q * 10000 * (3 * eps) <= p * 100
  ∧ p * 100 <= q * 10000 + q * 10000 * (3 * eps).
Proof.
  intros Hq p. unfold p, mul. rewrite of_int_100.
  destruct (fl_error q Hq) as [Hf1 Hf2].
  assert (0 <= fl q) as Hf0 by (apply fl_nonneg; done).
  destruct (fl_error (fl q * 100) ltac:(lra)) as [Hp1 Hp2].
  set (f := fl q) in *. set (g := fl (f * 100)) in *.
  unfold eps in *. lra.
Qed.

Lemma nearest_unique t x (k : Z) :
  inject_Z k - (1 # 2) < x → x < inject_Z k + (1 # 2) → nearest t x = k.
Proof.
  intros Hlo Hhi. destruct t; unfold nearest.
  - apply rne_unique; done.
  - apply Qfloor_unique; lra.
  - unfold Qceiling.
    assert (Qfloor (- (x - (1 # 2))) = (- k)%Z) as ->; [|lia].
    apply Qfloor_unique; rewrite inject_Z_opp; lra.
Qed.

(** Off the ties, an exact ratio times 10000 stays [1 / (2 * den)] away from
    the two halves next to its nearest integer. *)
Lemma off_tie_gap (num den : Z) :
  (0 < den)%Z →
  (∀ j, 20000 * num ≠ (2 * j + 1) * den)%Z →
  let V := inject_Z num / inject_Z den * 100 * 100 in
  let k := inject_Z (rne V) in
  k - (1 # 2) + / inject_Z den * (1 # 2) <= V
  ∧ V <= k + (1 # 2) - / inject_Z den * (1 # 2).
Proof.
  intros Hden Htie V k.
  assert (0 < inject_Z den) as HD by (rewrite <- (Zlt_Qlt 0); lia).
  assert (0 < / inject_Z den) as HI by (apply Qinv_lt_0_compat; done).
  destruct (rne_near V) as [Hhi Hlo]. fold k in Hlo, Hhi.
  assert (V * (2 * inject_Z den) == 20000 * inject_Z num) as HV.
  { unfold V. field. lra. }
  apply (Qmult_le_compat_r _ _ (2 * inject_Z den)) in Hlo, Hhi; try lra.
  assert ((2 * (rne V + -1) + 1) * den + 1 <= 20000 * num)%Z as Hz1.
  { assert ((2 * (rne V + -1) + 1) * den <= 20000 * num)%Z as Hle.
    { rewrite Zle_Qle. push_inject.
      fold k. change (inject_Z (-1)) with (-1). change (inject_Z 2) with 2.
      change (inject_Z 1) with 1. change (inject_Z 20000) with 20000. lra. }
    specialize (Htie (rne V + -1)%Z). lia. }
  assert (20000 * num + 1 <= (2 * rne V + 1) * den)%Z as Hz2.
  { assert (20000 * num <= (2 * rne V + 1) * den)%Z as Hle.
    { rewrite Zle_Qle. push_inject.
      fold k. change (inject_Z 2) with 2.
      change (inject_Z 1) with 1. change (inject_Z 20000) with 20000. lra. }
    specialize (Htie (rne V)). lia. }
  rewrite Zle_Qle in Hz1, Hz2.
  repeat (rewrite inject_Z_plus in Hz1 || rewrite inject_Z_mult in Hz1).
  repeat (rewrite inject_Z_plus in Hz2 || rewrite inject_Z_mult in Hz2).
  fold k in Hz1, Hz2.
  change (inject_Z (-1)) with (-1) in Hz1. change (inject_Z 2) with 2 in Hz1, Hz2.
  change (inject_Z 1) with 1 in Hz1, Hz2.
  change (inject_Z 20000) with 20000 in Hz1, Hz2.
  rewrite <- HV in Hz1, Hz2.
  apply (Qmult_le_compat_r _ _ (/ inject_Z den * (1 # 2))) in Hz1, Hz2; try lra.
  assert (V * (2 * inject_Z den) * (/ inject_Z den * (1 # 2)) == V) as HVV
    by (field; lra).
  assert (((2 * (k + -1) + 1) * inject_Z den + 1) * (/ inject_Z den * (1 # 2))
          == k - (1 # 2) + / inject_Z den * (1 # 2)) as H1 by (field; lra).
  assert ((V * (2 * inject_Z den) + 1) * (/ inject_Z den * (1 # 2))
          == V + / inject_Z den * (1 # 2)) as H2 by (field; lra).
  assert ((2 * k + 1) * inject_Z den * (/ inject_Z den * (1 # 2))
          == k + (1 # 2)) as H3 by (field; lra).
  rewrite HVV, H1 in Hz1. rewrite H2, H3 in Hz2. lra.
Qed.

(** Off the ties and below [2 ^ 37], the reported percentage is the exact
    ratio times 100 rounded to two decimals, whatever the rule for ties. *)
Lemma reported_percentage_exact t (num den : Z) :
  (0 <= num < 2 ^ 37)%Z → (0 < den)%Z →
  (∀ j, 20000 * num ≠ (2 * j + 1) * den)%Z →
  reported_percentage num den = Some (exact_percentage_2dp t num den).
Proof.
  intros [Hn0 Hn1] Hden Htie. unfold reported_percentage.
  destruct (Z.eqb_spec den 0) as [|_]; [lia|]. f_equal.
  unfold round2, exact_percentage_2dp, literal2. do 3 f_equal.
  destruct (off_tie_gap num den Hden Htie) as [Hg1 Hg2].
  assert (0 < inject_Z den) as HD by (rewrite <- (Zlt_Qlt 0); lia).
  assert (0 < / inject_Z den) as HI by (apply Qinv_lt_0_compat; done).
  assert (0 <= inject_Z num) as HN by (rewrite <- (Zle_Qle 0); lia).
  assert (inject_Z num <= 137438953471) as HN1.
  { change 137438953471 with (inject_Z (2 ^ 37 - 1)). rewrite <- Zle_Qle. lia. }
  assert (0 <= inject_Z num / inject_Z den) as Hq.
  { apply Qle_shift_div_l; [done|]. lra. }
  destruct (percentage_error _ Hq) as [He1 He2].
  set (p := mul (fl (inject_Z num / inject_Z den)) (of_int 100)) in *.
  set (V := inject_Z num / inject_Z den * 100 * 100) in *.
  assert (inject_Z num / inject_Z den * 10000 == V) as HV by (unfold V; ring).
  rewrite HV in He1, He2.
  assert (V * (3 * eps) < / inject_Z den * (1 # 2)) as Herr.
  { assert (V * (3 * eps) == inject_Z num * (30000 * eps) * / inject_Z den) as ->
      by (unfold V; field; lra).
    rewrite (Qmult_comm (/ inject_Z den)).
    apply Qmult_lt_compat_r; [done|]. unfold eps. lra. }
  transitivity (rne V).
  - apply rne_unique; lra.
  - symmetry. apply nearest_unique; lra.
Qed.

End Rounding.

(** ** C2: the guards against a zero denominator *)

Lemma reported_percentage_none num den :
  reported_percentage num den = None ↔ den = 0.
Proof.
  unfold reported_percentage. destruct (Z.eqb_spec den 0); split; done.
Qed.

Lemma reported_percentage_some num den :
  den ≠ 0 →
  reported_percentage num den = Some (Binary64.round2 (percent_float num den)).
Proof.
  intros Hden. unfold reported_percentage.
  destruct (Z.eqb_spec den 0); [done|reflexivity].
Qed.

(** The float percentage is the exact one up to a relative [3 * eps]. *)
Lemma percent_float_error num den :
  0 <= num → 0 < den →
  let exact := (inject_Z num / inject_Z den * 100)%Q in
  (exact - exact * (3 * eps) <= percent_float num den)%Q
  ∧ (percent_float num den <= exact + exact * (3 * eps))%Q.
Proof.
  intros Hnum Hden exact.
  assert (0 < inject_Z den)%Q as HD by (rewrite <- (Zlt_Qlt 0); lia).
  assert (0 <= inject_Z num)%Q as HN by (rewrite <- (Zle_Qle 0); lia).
  assert (0 <= inject_Z num / inject_Z den)%Q as Hq.
  { apply Qle_shift_div_l; [done|]. lra. }
  destruct (percentage_error _ Hq) as [H1 H2]. fold (percent_float num den) in H1, H2.
  unfold exact. lra.
Qed.

Lemma keeper_rows_iff e t :
  String.eqb (position e) "keeper" && String.eqb (event_type e) t = true
  ↔ position e = "keeper" ∧ event_type e = t.
Proof. rewrite andb_true_iff, !String.eqb_eq. done. Qed.

Lemma shots_on_target_iff e :
  String.eqb (position e) "field" && String.eqb (event_type e) "shot"
  && on_target e = true
  ↔ field_shot e ∧ on_target e = true.
Proof. rewrite andb_true_iff, field_shot_iff. done. Qed.

(** C2, the claim as stated fails: a percentage that is defined is not
    [numerator / denominator * 100] but that value rounded to two decimals.
    With one goal out of three shots [stats] reports 33.33, which is below
    the float [1 / 3 * 100] and below the exact quotient. *)
Lemma percentage_is_not_the_quotient :
  ∃ r, stats one_goal_three_shots [] (fun _ => mkdatetime 2024 1 2 10 0 0 0) = Ok r
    ∧ total_goals r = 1 ∧ total_shots r = 3
    ∧ goal_percentage r = Some (Binary64.literal2 3333)
    ∧ (Binary64.literal2 3333 < percent_float 1 3)%Q
    ∧ (Binary64.literal2 3333 < 1 / 3 * 100)%Q.
Proof.
  eexists. split; [vm_compute; reflexivity|].
  split; [reflexivity|]. split; [reflexivity|]. split; [reflexivity|].
  split; vm_compute; reflexivity.
Qed.

(** C2 (amended): for every list of rows [stats] returns (no division
    raises); its numerators and denominators are the counts of the rows:
    field shots, field shots on target, field goals and scored shots, keeper
    shots on goal against and keeper saves; each of [goal_percentage],
    [on_target_percentage] and [save_percentage] is [None] exactly when its
    denominator is zero, and otherwise [round(_, 2)] of the binary64 value
    of [numerator / denominator * 100], which is within a relative
    [3 * 2 ^ -53] of the exact quotient times 100. *)
Theorem percentages_guarded events goals clock :
  ∃ r, stats events goals clock = Ok r
    ∧ total_shots r = Z.of_nat (length (filter field_shot events))
    ∧ total_goals r = Z.of_nat (length (filter field_goal events))
    ∧ total_on_target r
      = Z.of_nat (length (filter (fun e =>
          field_shot e ∧ on_target e = true) events))
    ∧ shots_on_against r
      = Z.of_nat (length (filter (fun e =>
          position e = "keeper" ∧ event_type e = "shot_on_goal_against") events))
    ∧ saves r
      = Z.of_nat (length (filter (fun e =>
          position e = "keeper" ∧ event_type e = "save") events))
    ∧ (goal_percentage r = None ↔ total_shots r = 0)
    ∧ (on_target_percentage r = None ↔ total_shots r = 0)
    ∧ (save_percentage r = None ↔ shots_on_against r = 0)
    ∧ (total_shots r ≠ 0 →
       goal_percentage r
       = Some (Binary64.round2 (percent_float (total_goals r) (total_shots r)))
       ∧ on_target_percentage r
         = Some (Binary64.round2 (percent_float (total_on_target r) (total_shots r))))
    ∧ (shots_on_against r ≠ 0 →
       save_percentage r
       = Some (Binary64.round2 (percent_float (saves r) (shots_on_against r))))
    ∧ (∀ num den, (num, den) ∈ [(total_goals r, total_shots r);
                                (total_on_target r, total_shots r);
                                (saves r, shots_on_against r)] →
       den ≠ 0 →
       let exact := (inject_Z num / inject_Z den * 100)%Q in
       (exact - exact * (3 * eps) <= percent_float num den)%Q
       ∧ (percent_float num den <= exact + exact * (3 * eps))%Q).
Proof.
  destruct (stats_returns events goals clock) as [gp ->].
  eexists. split; [reflexivity|]. simpl.
  split; [apply sum_ones_filter, field_shot_iff|].
  split; [apply sum_ones_filter, field_goal_iff|].
  split; [apply sum_ones_filter, shots_on_target_iff|].
  split; [apply sum_ones_filter; intros e; apply keeper_rows_iff|].
  split; [apply sum_ones_filter; intros e; apply keeper_rows_iff|].
  split; [apply reported_percentage_none|].
  split; [apply reported_percentage_none|].
  split; [apply reported_percentage_none|].
  split; [intros Hd; split; apply reported_percentage_some; exact Hd|].
  split; [apply reported_percentage_some|].
  intros num den Hin Hden.
  assert (0 <= num ∧ 0 <= den) as [Hn Hd].
  { rewrite !elem_of_cons, elem_of_nil in Hin.
    destruct Hin as [[= -> ->]|[[= -> ->]|[[= -> ->]|[]]]];
      split; apply sum_ones_nonneg. }
  apply percent_float_error; lia.
Qed.

(** Four shots on goal against and three saves: the denominator is 4, and
    the report is 75.0. *)
Lemma percentages_guarded_witness :
  ∃ r, stats scenario_B [] (fun _ => mkdatetime 2024 1 2 10 0 0 0) = Ok r
    ∧ shots_on_against r = 4 ∧ saves r = 3
    ∧ shots_on_against r ≠ 0
    ∧ save_percentage r = Some 75%Q
    ∧ goal_percentage r = None.
Proof.
  destruct (percentages_guarded scenario_B [] (fun _ => mkdatetime 2024 1 2 10 0 0 0))
    as (r & Hr & Hshots & _ & _ & Hagainst & Hsaves & Hnone & _ & _ & _ & Hsave & _).
  assert (shots_on_against r = 4) as H4 by (rewrite Hagainst; reflexivity).
  assert (saves r = 3) as H3 by (rewrite Hsaves; reflexivity).
  assert (total_shots r = 0) as H0 by (rewrite Hshots; reflexivity).
  exists r. split; [exact Hr|]. split; [exact H4|]. split; [exact H3|].
  split; [lia|]. split; [|by apply Hnone].
  rewrite Hsave, H3, H4 by lia. reflexivity.
Defined.

(** ** C7: what the rounding reports *)

(** C7, the claim as stated fails at ties.  With 23 of 160 shots on target
    the exact percentage is 14.375, which rounds to 14.38 by ties-to-even and
    by ties-up, and [stats] reports 14.37; with 49 of 160 it is 30.625, which
    rounds to 30.62 by ties-to-even and by ties-down, and [stats] reports
    30.63. *)
Lemma rounding_follows_the_float_at_ties :
  (∃ r, stats (shots_on_target 23 160) [] (fun _ => mkdatetime 2024 1 2 10 0 0 0) = Ok r
     ∧ total_on_target r = 23 ∧ total_shots r = 160
     ∧ on_target_percentage r = Some (Binary64.literal2 1437)
     ∧ exact_percentage_2dp HalfEven 23 160 = Binary64.literal2 1438
     ∧ exact_percentage_2dp HalfUp 23 160 = Binary64.literal2 1438
     ∧ (Binary64.literal2 1437 < Binary64.literal2 1438)%Q)
  ∧ (∃ r, stats (shots_on_target 49 160) [] (fun _ => mkdatetime 2024 1 2 10 0 0 0) = Ok r
     ∧ total_on_target r = 49 ∧ total_shots r = 160
     ∧ on_target_percentage r = Some (Binary64.literal2 3063)
     ∧ exact_percentage_2dp HalfEven 49 160 = Binary64.literal2 3062
     ∧ exact_percentage_2dp HalfDown 49 160 = Binary64.literal2 3062
     ∧ (Binary64.literal2 3062 < Binary64.literal2 3063)%Q).
Proof.
  split; (eexists; split; [vm_compute; reflexivity|]);
    repeat split; vm_compute; reflexivity.
Qed.

(** C7 (amended): for every list of rows with a non-zero denominator, each
    reported percentage is [round(p, 2)] of the binary64 value [p] of
    [numerator / denominator * 100]; whenever the numerator is below [2 ^ 37]
    and the exact ratio times 100 is not halfway between two neighbouring
    multiples of 0.01, that is the exact ratio times 100 rounded to two
    decimal places (whatever the rule for ties), as the float that decimal
    denotes.  One goal out of three shots yields 33.33. *)
Theorem reported_percentages_rounded :
  (∀ events goals clock,
     ∃ r, stats events goals clock = Ok r
       ∧ (total_shots r ≠ 0 →
          goal_percentage r
          = Some (Binary64.round2 (percent_float (total_goals r) (total_shots r)))
          ∧ on_target_percentage r
            = Some (Binary64.round2
                      (percent_float (total_on_target r) (total_shots r))))
       ∧ (shots_on_against r ≠ 0 →
          save_percentage r
          = Some (Binary64.round2 (percent_float (saves r) (shots_on_against r))))
       ∧ (∀ t, total_shots r ≠ 0 → total_goals r < 2 ^ 37 →
               off_tie (total_goals r) (total_shots r) →
               goal_percentage r
               = Some (exact_percentage_2dp t (total_goals r) (total_shots r)))
       ∧ (∀ t, total_shots r ≠ 0 → total_on_target r < 2 ^ 37 →
               off_tie (total_on_target r) (total_shots r) →
               on_target_percentage r
               = Some (exact_percentage_2dp t (total_on_target r) (total_shots r)))
       ∧ (∀ t, shots_on_against r ≠ 0 → saves r < 2 ^ 37 →
               off_tie (saves r) (shots_on_against r) →
               save_percentage r
               = Some (exact_percentage_2dp t (saves r) (shots_on_against r))))
  ∧ ∃ r, stats one_goal_three_shots [] (fun _ => mkdatetime 2024 1 2 10 0 0 0) = Ok r
       ∧ total_goals r = 1 ∧ total_shots r = 3
       ∧ goal_percentage r = Some (Binary64.literal2 3333).
Proof.
  split.
  - intros events goals clock.
    destruct (stats_returns events goals clock) as [gp ->].
    eexists. split; [reflexivity|]. simpl.
    split; [intros Hd; split; apply reported_percentage_some; exact Hd|].
    split; [apply reported_percentage_some|].
    split; [|split]; intros t Hden Hnum Htie;
      (apply reported_percentage_exact;
       [split; [apply sum_ones_nonneg|exact Hnum]
       |match goal with |- 0 < ?d => pose proof (sum_ones_nonneg _ _ : 0 <= d); lia end
       |exact Htie]).
  - eexists. split; [vm_compute; reflexivity|]. repeat split.
Qed.

(** One goal out of three shots: the denominator is not zero, [100 / 3] is
    off the ties, and the report is 33.33. *)
Lemma reported_percentages_rounded_witness :
  ∃ r, stats one_goal_three_shots [] (fun _ => mkdatetime 2024 1 2 10 0 0 0) = Ok r
    ∧ total_shots r ≠ 0 ∧ total_goals r < 2 ^ 37
    ∧ off_tie (total_goals r) (total_shots r)
    ∧ goal_percentage r = Some (exact_percentage_2dp HalfUp 1 3).
Proof.
  destruct reported_percentages_rounded as [Hall _].
  destruct (Hall one_goal_three_shots [] (fun _ => mkdatetime 2024 1 2 10 0 0 0))
    as (r & Hr & _ & _ & Hgoal & _).
  exists r. split; [exact Hr|].
  assert (total_goals r = 1 ∧ total_shots r = 3) as [Hg Hs].
  { vm_compute in Hr. injection Hr as <-. split; reflexivity. }
  assert (off_tie (total_goals r) (total_shots r)) as Htie.
  { rewrite Hg, Hs. intros j. lia. }
  split; [lia|]. split; [lia|]. split; [exact Htie|].
  rewrite (Hgoal HalfUp) by (done || lia). rewrite Hg, Hs. reflexivity.
Defined.

(** ** C3: the time series *)

Section Chart.

Lemma count_on_nil P `{!∀ e, Decision (P e)} s : count_on P s [] = 0.
Proof. reflexivity. Qed.

Lemma count_on_snoc P `{!∀ e, Decision (P e)} s l e :
  count_on P s (l ++ [e])
  = count_on P s l + (if decide (day_of e = s ∧ P e) then 1 else 0).
Proof.
  unfold count_on. rewrite filter_app, length_app, filter_cons, filter_nil.
  case_decide; simpl; lia.
Qed.

Lemma count_on_nonneg P `{!∀ e, Decision (P e)} s l : 0 <= count_on P s l.
Proof. unfold count_on. lia. Qed.

Lemma count_on_pos P `{!∀ e, Decision (P e)} s l :
  0 < count_on P s l ↔ ∃ e, e ∈ l ∧ day_of e = s ∧ P e.
Proof.
  unfold count_on. split.
  - intros Hpos. destruct (filter _ l) as [|e l'] eqn:Hf; [simpl in Hpos; lia|].
    assert (e ∈ filter (fun e => day_of e = s ∧ P e) l) as Hin
      by (rewrite Hf; left).
    apply list_elem_of_filter in Hin as [[Hs HP] Hin]. eauto.
  - intros (e & Hin & Hs & HP).
    assert (e ∈ filter (fun e => day_of e = s ∧ P e) l) as Hin'
      by (apply list_elem_of_filter; auto).
    destruct (filter _ l); [by apply elem_of_nil in Hin'|simpl; lia].
Qed.

Lemma incr_goals_spec d (m : gmap string day_counts) s :
  goals_at (incr_goals d m) s = goals_at m s + (if decide (d = s) then 1 else 0)
  ∧ shots_at (incr_goals d m) s = shots_at m s
  ∧ (is_Some (incr_goals d m !! s) ↔ d = s ∨ is_Some (m !! s)).
Proof.
  unfold goals_at, shots_at, incr_goals. destruct (decide (d = s)) as [->|Hne].
  - rewrite lookup_insert_eq. simpl. split; [lia|]. split; [done|].
    split; [auto|]. intros _. by eexists.
  - rewrite lookup_insert_ne by done. split; [lia|]. split; [done|].
    split; [auto|]. intros [|]; done.
Qed.

Lemma incr_shots_spec d (m : gmap string day_counts) s :
  goals_at (incr_shots d m) s = goals_at m s
  ∧ shots_at (incr_shots d m) s = shots_at m s + (if decide (d = s) then 1 else 0)
  ∧ (is_Some (incr_shots d m !! s) ↔ d = s ∨ is_Some (m !! s)).
Proof.
  unfold goals_at, shots_at, incr_shots. destruct (decide (d = s)) as [->|Hne].
  - rewrite lookup_insert_eq. simpl. split; [done|]. split; [lia|].
    split; [auto|]. intros _. by eexists.
  - rewrite lookup_insert_ne by done. split; [done|]. split; [lia|].
    split; [auto|]. intros [|]; done.
Qed.

Lemma field_goal_eqb e :
  String.eqb (position e) "field"
  && (String.eqb (event_type e) "goal"
      || String.eqb (event_type e) "shot" && scored e)
  = bool_decide (field_goal e).
Proof.
  apply eq_true_iff_eq. rewrite field_goal_iff, bool_decide_eq_true. done.
Qed.

Lemma field_shot_eqb e :
  String.eqb (position e) "field" && String.eqb (event_type e) "shot"
  = bool_decide (field_shot e).
Proof.
  apply eq_true_iff_eq. rewrite field_shot_iff, bool_decide_eq_true. done.
Qed.

(** One turn of the loop. *)
Lemma by_date_step_spec (m : gmap string day_counts) e s :
  goals_at (by_date_step m e) s
  = goals_at m s + (if decide (day_of e = s ∧ field_goal e) then 1 else 0)
  ∧ shots_at (by_date_step m e) s
    = shots_at m s + (if decide (day_of e = s ∧ field_shot e) then 1 else 0)
  ∧ (is_Some (by_date_step m e !! s)
     ↔ is_Some (m !! s) ∨ day_of e = s ∧ (field_goal e ∨ field_shot e)).
Proof.
  unfold by_date_step. rewrite field_goal_eqb, field_shot_eqb. fold (day_of e).
  set (m1 := if bool_decide (field_goal e) then incr_goals (day_of e) m else m).
  assert (goals_at m1 s
          = goals_at m s + (if decide (day_of e = s ∧ field_goal e) then 1 else 0)
          ∧ shots_at m1 s = shots_at m s
          ∧ (is_Some (m1 !! s)
             ↔ is_Some (m !! s) ∨ day_of e = s ∧ field_goal e))
    as (Hg1 & Hs1 & Hk1).
  { unfold m1. destruct (decide (field_goal e)) as [HG|HG].
    - rewrite bool_decide_eq_true_2 by done.
      destruct (incr_goals_spec (day_of e) m s) as (-> & -> & ->).
      split; [|split; [done|tauto]].
      destruct (decide (day_of e = s)); repeat case_decide; first [lia | exfalso; tauto].
    - rewrite bool_decide_eq_false_2 by done.
      split; [|split; [done|tauto]]. repeat case_decide; first [lia | exfalso; tauto]. }
  destruct (decide (field_shot e)) as [HS|HS].
  - rewrite bool_decide_eq_true_2 by done.
    destruct (incr_shots_spec (day_of e) m1 s) as (-> & -> & ->).
    rewrite Hg1, Hs1, Hk1. split; [done|]. split; [|tauto].
    destruct (decide (day_of e = s)); repeat case_decide; first [lia | exfalso; tauto].
  - rewrite bool_decide_eq_false_2 by done.
    rewrite Hg1, Hs1, Hk1. split; [done|]. split; [|tauto].
    repeat case_decide; first [lia | exfalso; tauto].
Qed.

(** What [by_date] holds after the loop: the days that are keys are those on
    which a row counted, and an entry holds the two counts of its day. *)
Lemma by_date_lookup events s :
  let by_date := foldl by_date_step ∅ events in
  goals_at by_date s = count_on field_goal s events
  ∧ shots_at by_date s = count_on field_shot s events
  ∧ (is_Some (by_date !! s)
     ↔ ∃ e, e ∈ events ∧ day_of e = s ∧ (field_goal e ∨ field_shot e)).
Proof.
  induction events as [|e l IH] using rev_ind; simpl.
  - unfold goals_at, shots_at. rewrite lookup_empty, !count_on_nil. simpl.
    split; [done|]. split; [done|]. split.
    + intros [? [=]].
    + intros (e & Hin & _). by apply elem_of_nil in Hin.
  - rewrite foldl_snoc. simpl in IH. destruct IH as (IHg & IHs & IHk).
    destruct (by_date_step_spec (foldl by_date_step ∅ l) e s) as (-> & -> & ->).
    rewrite !count_on_snoc, IHg, IHs, IHk. split; [done|]. split; [done|].
    split.
    + intros [(e' & Hin & H')|H'].
      * exists e'. rewrite elem_of_app. auto.
      * exists e. rewrite elem_of_app, list_elem_of_singleton. auto.
    + intros (e' & Hin & H'). apply elem_of_app in Hin as [Hin|Hin].
      * left. eauto.
      * apply list_elem_of_singleton in Hin as ->. auto.
Qed.

End Chart.

(** *** The order of ISO dates as strings *)

Section Iso_order.

Lemma ascii_compare_refl c : Ascii.compare c c = Eq.
Proof. unfold Ascii.compare. apply N.compare_refl. Qed.

Lemma string_compare_refl s : String.compare s s = Eq.
Proof. induction s as [|c s IH]; simpl; [done|]. by rewrite ascii_compare_refl. Qed.

Lemma digit_compare x y :
  0 <= x → x < y → y <= 9 → Ascii.compare (digit x) (digit y) = Lt.
Proof.
  intros Hx Hxy Hy. unfold Ascii.compare, digit.
  rewrite !N_ascii_embedding by lia. apply N.compare_lt_iff. lia.
Qed.

(** Equal prefixes do not count; the first difference decides. *)
Lemma compare_app_same s t1 t2 :
  String.compare (s +:+ t1) (s +:+ t2) = String.compare t1 t2.
Proof.
  induction s as [|c s IH]; simpl; [done|]. by rewrite ascii_compare_refl.
Qed.

Lemma compare_app_lt s1 s2 t1 t2 :
  String.length s1 = String.length s2 →
  String.compare s1 s2 = Lt → String.compare (s1 +:+ t1) (s2 +:+ t2) = Lt.
Proof.
  revert s2. induction s1 as [|c1 s1 IH]; intros [|c2 s2]; simpl; try done.
  intros [= Hlen]. destruct (Ascii.compare c1 c2); [apply IH; done|done|done].
Qed.

Lemma zfill_length w n : String.length (zfill w n) = w.
Proof. revert n. induction w as [|w IH]; intros n; simpl; [done|]. by rewrite IH. Qed.

Lemma zfill_lt w a b :
  0 <= a → a < b → b < 10 ^ Z.of_nat w →
  String.compare (zfill w a) (zfill w b) = Lt.
Proof.
  revert a b. induction w as [|w IH]; intros a b Ha Hab Hb.
  - simpl in Hb. lia.
  - simpl zfill. cbn [String.compare].
    assert (0 < 10 ^ Z.of_nat w) as Hpow by (apply Z.pow_pos_nonneg; lia).
    assert (10 ^ Z.of_nat (S w) = 10 * 10 ^ Z.of_nat w) as Hs.
    { rewrite Nat2Z.inj_succ, Z.pow_succ_r by lia. done. }
    rewrite Hs in Hb.
    pose proof (Z.div_mod a (10 ^ Z.of_nat w) ltac:(lia)) as Hda.
    pose proof (Z.div_mod b (10 ^ Z.of_nat w) ltac:(lia)) as Hdb.
    pose proof (Z.mod_pos_bound a (10 ^ Z.of_nat w) Hpow) as Hma.
    pose proof (Z.mod_pos_bound b (10 ^ Z.of_nat w) Hpow) as Hmb.
    assert (0 <= a / 10 ^ Z.of_nat w) as Hqa by (apply Z.div_pos; lia).
    assert (b / 10 ^ Z.of_nat w <= 9) as Hqb.
    { assert (b / 10 ^ Z.of_nat w < 10); [|lia].
      apply Z.div_lt_upper_bound; lia. }
    assert (a / 10 ^ Z.of_nat w <= b / 10 ^ Z.of_nat w) as Hq
      by (apply Z.div_le_mono; lia).
    destruct (Z.eq_dec (a / 10 ^ Z.of_nat w) (b / 10 ^ Z.of_nat w)) as [Heq|Hne].
    + rewrite Heq, ascii_compare_refl. apply IH; [lia| |lia].
      rewrite Heq in Hda. lia.
    + rewrite digit_compare by lia. done.
Qed.

Lemma isoformat_lt a b :
  valid_date a → valid_date b → date_lt a b →
  String.compare (isoformat a) (isoformat b) = Lt.
Proof.
  intros (Hya & Hma & Hda) (Hyb & Hmb & Hdb). unfold date_lt, date_cmp, isoformat.
  destruct (Z.compare_spec (year a) (year b)) as [Hy|Hy|Hy]; try done.
  - rewrite Hy, compare_app_same, compare_app_same.
    destruct (Z.compare_spec (month a) (month b)) as [Hm|Hm|Hm]; try done.
    + rewrite Hm, compare_app_same, compare_app_same.
      destruct (Z.compare_spec (day a) (day b)) as [Hd|Hd|Hd]; try done.
      intros _. apply zfill_lt; simpl; lia.
    + intros _. apply compare_app_lt; [by rewrite !zfill_length|].
      apply zfill_lt; simpl; lia.
  - intros _. apply compare_app_lt; [by rewrite !zfill_length|].
    apply zfill_lt; simpl; lia.
Qed.

Lemma date_cmp_eq a b : date_cmp a b = Eq → a = b.
Proof.
  unfold date_cmp. destruct a as [ya ma da], b as [yb mb db]. simpl.
  destruct (Z.compare_spec ya yb); try done.
  destruct (Z.compare_spec ma mb); try done.
  destruct (Z.compare_spec da db); try done. by subst.
Qed.

Lemma date_cmp_gt a b : date_cmp a b = Gt → date_lt b a.
Proof.
  unfold date_lt, date_cmp.
  rewrite (Z.compare_antisym (year a)), (Z.compare_antisym (month a)),
    (Z.compare_antisym (day a)).
  destruct (year a ?= year b); simpl; try done.
  destruct (month a ?= month b); simpl; try done.
  destruct (day a ?= day b); simpl; done.
Qed.

(** Among valid dates, the order of the ISO strings is the order of the
    dates. *)
Lemma isoformat_le_lt a b :
  valid_date a → valid_date b →
  String.le (isoformat a) (isoformat b) → isoformat a ≠ isoformat b →
  date_lt a b.
Proof.
  intros Ha Hb Hle Hne. destruct (date_cmp a b) eqn:Hcmp.
  - apply date_cmp_eq in Hcmp. by subst.
  - exact Hcmp.
  - apply date_cmp_gt, isoformat_lt in Hcmp; [|done..].
    unfold String.le, String.leb in Hle.
    rewrite String.compare_antisym, Hcmp in Hle. simpl in Hle. done.
Qed.

End Iso_order.

(** *** [sorted(by_date.keys())] *)

Section Sorted_keys.
Context {V : Type}.
Implicit Types (d : gmap string V).

Lemma elem_of_sorted_keys d s : s ∈ sorted_keys d ↔ is_Some (d !! s).
Proof.
  unfold sorted_keys. rewrite merge_sort_Permutation, list_elem_of_fmap. split.
  - intros ([k v] & -> & Hin). apply elem_of_map_to_list in Hin. by eexists.
  - intros [v Hv]. exists (s, v). split; [done|]. by apply elem_of_map_to_list.
Qed.

Lemma NoDup_sorted_keys d : NoDup (sorted_keys d).
Proof.
  unfold sorted_keys. rewrite merge_sort_Permutation.
  apply NoDup_fst_map_to_list.
Qed.

Lemma StronglySorted_sorted_keys d : StronglySorted String.le (sorted_keys d).
Proof. apply (StronglySorted_merge_sort String.le). Qed.

End Sorted_keys.

Lemma StronglySorted_lookup_lt {A : Type} (R : relation A) (l : list A) i j x y :
  StronglySorted R l → (i < j)%nat → l !! i = Some x → l !! j = Some y → R x y.
Proof.
  intros Hs. revert i j. induction Hs as [|a l Hs IH Hall]; intros i j Hij Hi Hj.
  - done.
  - destruct j as [|j]; [lia|]. destruct i as [|i]; simpl in *.
    + injection Hi as ->. rewrite Forall_forall in Hall.
      apply Hall. by eapply list_elem_of_lookup_2.
    + eapply IH; [|done..]. lia.
Qed.

Lemma NoDup_lookup_ne {A : Type} (l : list A) i j x y :
  NoDup l → i ≠ j → l !! i = Some x → l !! j = Some y → x ≠ y.
Proof.
  intros Hnd Hij Hi Hj ->. apply Hij. by eapply NoDup_lookup.
Qed.

Lemma isoformat_inj a b :
  valid_date a → valid_date b → isoformat a = isoformat b → a = b.
Proof.
  intros Ha Hb Heq. destruct (date_cmp a b) eqn:Hcmp.
  - by apply date_cmp_eq.
  - apply (isoformat_lt a b Ha Hb) in Hcmp.
    rewrite Heq, string_compare_refl in Hcmp. done.
  - apply date_cmp_gt, (isoformat_lt b a Hb Ha) in Hcmp.
    rewrite Heq, string_compare_refl in Hcmp. done.
Qed.

(** C3: for every list of rows, the chart of [stats] is three sequences of
    one length; the labels are, without repetition and in ascending order,
    the ISO dates of the rows that are field shots or field goals (a goal or
    a scored shot); the goal count and the shot count at the place of a label
    are the numbers of such rows on that date, hence 0 for a date that only
    has rows of the other kind; among valid dates the ISO string determines
    the date and the order of the labels is the order of the dates. *)
Theorem time_series_by_date events goals clock :
  ∃ r, stats events goals clock = Ok r
    ∧ length (chart_goals (chart_data r)) = length (chart_labels (chart_data r))
    ∧ length (chart_shots (chart_data r)) = length (chart_labels (chart_data r))
    ∧ NoDup (chart_labels (chart_data r))
    ∧ StronglySorted String.le (chart_labels (chart_data r))
    ∧ (∀ s, s ∈ chart_labels (chart_data r)
            ↔ ∃ e, e ∈ events ∧ day_of e = s ∧ (field_goal e ∨ field_shot e))
    ∧ (∀ i s, chart_labels (chart_data r) !! i = Some s →
              chart_goals (chart_data r) !! i = Some (count_on field_goal s events)
              ∧ chart_shots (chart_data r) !! i
                = Some (count_on field_shot s events))
    ∧ (∀ e1 e2, valid_date (datetime_date (timestamp e1)) →
                valid_date (datetime_date (timestamp e2)) →
                (day_of e1 = day_of e2
                 → datetime_date (timestamp e1) = datetime_date (timestamp e2))
                ∧ ∀ i j, (i < j)%nat →
                    chart_labels (chart_data r) !! i = Some (day_of e1) →
                    chart_labels (chart_data r) !! j = Some (day_of e2) →
                    date_lt (datetime_date (timestamp e1))
                            (datetime_date (timestamp e2))).
Proof.
  destruct (stats_returns events goals clock) as [gp ->].
  eexists. split; [reflexivity|]. simpl. unfold chart_of. simpl.
  set (by_date := foldl by_date_step ∅ events).
  split; [apply length_fmap|]. split; [apply length_fmap|].
  split; [apply NoDup_sorted_keys|].
  split; [apply StronglySorted_sorted_keys|].
  split.
  { intros s. rewrite elem_of_sorted_keys. apply by_date_lookup. }
  split.
  { intros i s Hi. rewrite !list_lookup_fmap, Hi. simpl.
    destruct (by_date_lookup events s) as (Hg & Hs & _).
    fold by_date in Hg, Hs. unfold goals_at, shots_at in Hg, Hs.
    by rewrite Hg, Hs. }
  intros e1 e2 Hv1 Hv2. split; [apply isoformat_inj; done|].
  intros i j Hij Hi Hj. apply isoformat_le_lt; [done..| |].
  - eapply StronglySorted_lookup_lt;
      [apply (StronglySorted_sorted_keys by_date)|exact Hij|exact Hi|exact Hj].
  - eapply NoDup_lookup_ne; [apply (NoDup_sorted_keys by_date)| |exact Hi|exact Hj].
    lia.
Qed.

(** Scenario D: two field goals on two dates give two entries with one goal
    each, the earlier date first. *)
Lemma time_series_by_date_witness :
  let e1 := mkEvent 2 (mkdatetime 2023 12 31 18 30 0 0) "field" "goal" false false None in
  let e2 := mkEvent 1 (mkdatetime 2024 1 2 10 0 0 0) "field" "goal" false false None in
  valid_date (datetime_date (timestamp e1))
  ∧ valid_date (datetime_date (timestamp e2))
  ∧ ∃ r, stats goals_on_two_days [] (fun _ => mkdatetime 2024 1 2 10 0 0 0) = Ok r
      ∧ chart_labels (chart_data r) = [day_of e1; day_of e2]
      ∧ chart_goals (chart_data r) = [1; 1]
      ∧ date_lt (datetime_date (timestamp e1)) (datetime_date (timestamp e2)).
Proof.
  intros e1 e2.
  assert (valid_date (datetime_date (timestamp e1))) as Hv1
    by (unfold valid_date; simpl; lia).
  assert (valid_date (datetime_date (timestamp e2))) as Hv2
    by (unfold valid_date; simpl; lia).
  split; [exact Hv1|]. split; [exact Hv2|].
  destruct (time_series_by_date goals_on_two_days []
              (fun _ => mkdatetime 2024 1 2 10 0 0 0))
    as (r & Hr & _ & _ & _ & _ & _ & _ & Hdates).
  exists r. split; [exact Hr|].
  assert (chart_data r
          = mk_chart [day_of e1; day_of e2] [1; 1] [0; 0]) as Hc.
  { vm_compute in Hr. injection Hr as <-. vm_compute. reflexivity. }
  rewrite Hc in Hdates |- *. simpl. split; [reflexivity|]. split; [reflexivity|].
  destruct (Hdates e1 e2 Hv1 Hv2) as [_ Hlt].
  apply (Hlt 0%nat 1%nat); [lia|reflexivity|reflexivity].
Defined.

(** ** Further properties of the engine *)

(** With no rows every count is 0, every percentage is [None] and the chart
    is empty; that is also what [stats] reports after [admin_clear]. *)
Theorem stats_of_no_rows goals clock st :
  ∃ r, stats [] goals clock = Ok r
    ∧ stats (db_events (admin_clear st).2) goals clock = Ok r
    ∧ total_shots r = 0 ∧ total_on_target r = 0 ∧ total_goals r = 0
    ∧ total_assists r = 0 ∧ total_passes r = 0
    ∧ shots_on_against r = 0 ∧ saves r = 0 ∧ goals_allowed r = 0
    ∧ goal_percentage r = None ∧ on_target_percentage r = None
    ∧ save_percentage r = None
    ∧ chart_data r = mk_chart [] [] [].
Proof.
  destruct (stats_returns [] goals clock) as [gp Hr].
  eexists. split; [exact Hr|]. split; [exact Hr|]. simpl.
  repeat split.
Qed.

(** Scenarios A and B of the specification. *)
Theorem scenarios_A_and_B :
  (∃ r, stats scenario_A [] (fun _ => mkdatetime 2024 1 2 10 0 0 0) = Ok r
     ∧ total_shots r = 2 ∧ total_goals r = 1
     ∧ goal_percentage r = Some 50%Q ∧ on_target_percentage r = Some 50%Q)
  ∧ (∃ r, stats scenario_B [] (fun _ => mkdatetime 2024 1 2 10 0 0 0) = Ok r
     ∧ shots_on_against r = 4 ∧ saves r = 3
     ∧ save_percentage r = Some 75%Q ∧ goals_allowed r = 1).
Proof.
  split; (eexists; split; [vm_compute; reflexivity|]); repeat split.
Qed.

(** The progress of the two other known metrics: [save_percentage] is the
    unrounded percentage of the keeper rows, [None] without a shot on goal
    against; [shots_per_training] is the number of field shots. *)
Theorem known_metrics_progress target events utcnow goals clock :
  ∃ r, stats events goals clock = Ok r
    ∧ compute_goal_progress "save_percentage" target events utcnow
      = Ok (if shots_on_against r =? 0 then PNone
            else PFloat (percent_float (saves r) (shots_on_against r)))
    ∧ compute_goal_progress "shots_per_training" target events utcnow
      = Ok (PInt (total_shots r)).
Proof.
  destruct (stats_returns events goals clock) as [gp ->].
  eexists. split; [reflexivity|]. simpl. split; [|reflexivity].
  unfold compute_goal_progress. simpl. unfold int_truthy.
  match goal with |- context [?d =? 0] => destruct (Z.eqb_spec d 0) as [Hd|Hd] end;
    simpl; [reflexivity|].
  unfold Binary64.truediv.
  match goal with |- context [?d =? 0] => destruct (Z.eqb_spec d 0) end;
    [done|reflexivity].
Qed.

(** [goals] and [delete_goal] leave the events as they are. *)
Lemma goals_events float_of_str m form utcnow st :
  db_events (goals float_of_str m form utcnow st).2 = db_events st.
Proof.
  unfold goals. destruct m; [done|].
  destruct (form !! "metric"); [|done].
  destruct (form !! "target") as [t|]; [|done].
  destruct (float_of_str t) as [[x|neg|]|]; done.
Qed.

Lemma delete_goal_events id st : db_events (delete_goal id st).2 = db_events st.
Proof.
  unfold delete_goal. destruct (sqlite_integer id); [|done]. simpl.
  destruct (list_find _ _) as [[i g]|]; done.
Qed.

Lemma serve_validated float_of_str st req :
  Forall (fun e => validated (position e) (event_type e)) (db_events st) →
  Forall (fun e => validated (position e) (event_type e))
         (db_events (serve float_of_str st req)).
Proof.
  intros Hst. destruct req as [m form utcnow|m form utcnow|id|]; simpl.
  - destruct (add_event_store m form utcnow st) as [->|(ev & -> & Hev)];
      [exact Hst|]. simpl.
    apply Forall_app. split; [exact Hst|]. constructor; [exact Hev|constructor].
  - by rewrite goals_events.
  - by rewrite delete_goal_events.
  - constructor.
Qed.

(** Every row in the store passed the validation of [add_event], whatever
    requests were served; so over the store [total_goals] is at least the
    number of rows of type [goal]. *)
Theorem stored_rows_validated float_of_str reqs goals clock :
  Forall (fun e => validated (position e) (event_type e))
         (db_events (store_after float_of_str reqs))
  ∧ ∃ r, stats (db_events (store_after float_of_str reqs)) goals clock = Ok r
      ∧ Z.of_nat (length (filter (fun e => event_type e = "goal")
                                 (db_events (store_after float_of_str reqs))))
        <= total_goals r.
Proof.
  assert (Forall (fun e => validated (position e) (event_type e))
                 (db_events (store_after float_of_str reqs))) as Hinv.
  { unfold store_after. induction reqs as [|req reqs IH] using rev_ind.
    - constructor.
    - rewrite foldl_snoc. apply serve_validated, IH. }
  split; [exact Hinv|].
  destruct (stats_returns (db_events (store_after float_of_str reqs)) goals clock)
    as [gp ->].
  eexists. split; [reflexivity|]. simpl.
  rewrite (sum_ones_filter _ _ _ field_goal_iff).
  apply inj_le, goal_rows_le_field_goals, Hinv.
Qed.

(** On all pairs of counts below 64, and on the two ties above, the
    percentage computed through [Binary64.fl] is the one the operations of
    [SpecFloat] give; so is the float of every decimal from 0.00 to 100.00. *)
Theorem binary64_agrees_with_SpecFloat :
  forallb (fun n => forallb (fun d =>
      same_value (SF_percent n (d + 1)) (percent_float n (d + 1)))
    (upto 64)) (upto 64) = true
  ∧ same_value (SF_percent 23 160) (percent_float 23 160) = true
  ∧ same_value (SF_percent 49 160) (percent_float 49 160) = true
  ∧ forallb (fun k =>
      same_value (SFdiv 53 1024 (SF_of_Z k) (SF_of_Z 100)) (Binary64.literal2 k))
    (upto 10001) = true.
Proof.
  split; [vm_compute; reflexivity|]. split; [vm_compute; reflexivity|].
  split; vm_compute; reflexivity.
Qed.

(** ** The order of the rows does not matter *)

Section Order_of_rows.

Lemma sum_ones_Permutation {A : Type} (c : A → bool) (l l' : list A) :
  l ≡ₚ l' → sum_ones c l = sum_ones c l'.
Proof.
  induction 1 as [|x l l' _ IH|x y l|l l' l'' _ IH1 _ IH2].
  - done.
  - rewrite !sum_ones_cons, IH. done.
  - rewrite !sum_ones_cons. lia.
  - congruence.
Qed.

Lemma count_on_Permutation P `{!∀ e, Decision (P e)} s (l l' : list Event) :
  l ≡ₚ l' → count_on P s l = count_on P s l'.
Proof. intros Hp. unfold count_on. by rewrite Hp. Qed.

Lemma by_date_Permutation (l l' : list Event) :
  l ≡ₚ l' → foldl by_date_step ∅ l = foldl by_date_step ∅ l'.
Proof.
  intros Hp. apply map_eq. intros s.
  destruct (by_date_lookup l s) as (Hg & Hs & Hk).
  destruct (by_date_lookup l' s) as (Hg' & Hs' & Hk').
  simpl in *.
  rewrite (count_on_Permutation _ s l l' Hp), <- Hg' in Hg.
  rewrite (count_on_Permutation _ s l l' Hp), <- Hs' in Hs.
  assert (is_Some (foldl by_date_step ∅ l !! s)
          ↔ is_Some (foldl by_date_step ∅ l' !! s)) as Hiff.
  { rewrite Hk, Hk'. by setoid_rewrite Hp. }
  unfold goals_at, shots_at in Hg, Hs.
  destruct (foldl by_date_step ∅ l !! s) as [[g1 s1]|],
           (foldl by_date_step ∅ l' !! s) as [[g2 s2]|]; simpl in *.
  - congruence.
  - destruct Hiff as [Hiff _]. destruct (Hiff ltac:(by eexists)) as [? [=]].
  - destruct Hiff as [_ Hiff]. destruct (Hiff ltac:(by eexists)) as [? [=]].
  - done.
Qed.

Lemma filter_length_Permutation {A : Type} (c : A → bool) (l l' : list A) :
  l ≡ₚ l' → length (List.filter c l) = length (List.filter c l').
Proof.
  intros Hp. apply Nat2Z.inj. rewrite <- !sum_ones_length.
  by apply sum_ones_Permutation.
Qed.

Lemma compute_goal_progress_Permutation metric target (l l' : list Event) utcnow :
  l ≡ₚ l' →
  compute_goal_progress metric target l utcnow
  = compute_goal_progress metric target l' utcnow.
Proof.
  intros Hp. unfold compute_goal_progress.
  rewrite (filter_length_Permutation _ l l' Hp).
  rewrite !(sum_ones_Permutation _ l l' Hp). done.
Qed.

Lemma mapM_result_ext {A B : Type} (f g : A → result B) (l : list A) :
  (∀ x, f x = g x) → mapM f l = mapM g l.
Proof.
  intros Hfg. induction l as [|x l IH]; simpl; [done|]. by rewrite Hfg, IH.
Qed.

(** [stats] depends on the rows of the table, not on the order in which
    the query lists them. *)
Theorem stats_order_irrelevant (events events' : list Event) goals clock :
  events ≡ₚ events' → stats events goals clock = stats events' goals clock.
Proof.
  intros Hp. unfold stats, chart_of.
  rewrite (by_date_Permutation _ _ Hp).
  rewrite !(sum_ones_Permutation _ events events' Hp).
  erewrite (mapM_result_ext _ _ (imap pair goals)); [reflexivity|].
  intros [i g]. simpl.
  by rewrite (compute_goal_progress_Permutation _ _ _ _ _ Hp).
Qed.

Lemma stats_order_irrelevant_witness :
  let t := mkdatetime 2024 1 2 10 0 0 0 in
  let e1 := mkEvent 1 t "field" "shot" true true None in
  let e2 := mkEvent 2 t "keeper" "save" false false None in
  [e1; e2] ≡ₚ [e2; e1]
  ∧ stats [e1; e2] [] (fun _ => t) = stats [e2; e1] [] (fun _ => t).
Proof.
  intros t e1 e2.
  assert ([e1; e2] ≡ₚ [e2; e1]) as Hp by apply Permutation_swap.
  split; [exact Hp|]. apply stats_order_irrelevant, Hp.
Defined.

End Order_of_rows.

(** ** The progress of the training goals *)

Lemma mapM_result_lookup {A B : Type} (f : A → result B) (l : list A) ys :
  mapM f l = Ok ys →
  length ys = length l
  ∧ ∀ i x, l !! i = Some x → ∃ y, ys !! i = Some y ∧ f x = Ok y.
Proof.
  revert ys. induction l as [|a l IH]; intros ys; simpl.
  - intros [= <-]. split; [done|]. intros i x Hi. by rewrite lookup_nil in Hi.
  - destruct (f a) as [b|] eqn:Hfa; simpl; [|done].
    destruct (mapM f l) as [bs|] eqn:Hm; simpl; [|done].
    intros [= <-]. destruct (IH bs eq_refl) as [Hlen Hlook].
    split; [simpl; by rewrite Hlen|].
    intros [|i] x Hi; simpl in *.
    + injection Hi as <-. eauto.
    + by apply Hlook.
Qed.

Lemma stats_goals_progress events goals clock r :
  stats events goals clock = Ok r →
  mapM (fun ig : nat * TrainingGoal =>
          prog ← compute_goal_progress (metric ig.2) (target ig.2) events (clock ig.1);
          mret (mk_goal_progress (metric ig.2) (target ig.2) prog))
       (imap pair goals)
  = Ok (goals_progress r).
Proof.
  unfold stats. rewrite !guarded_percentage_ok. simpl.
  destruct (mapM _ _) as [gp|]; simpl; [|done]. by intros [= <-].
Qed.

(** [stats] reports one entry for each training goal, in the order of the
    goals: the goal's metric and target, with the progress that
    [compute_goal_progress] returns at the reading of the clock made for it. *)
Theorem goals_progress_entries events goals clock :
  ∃ r, stats events goals clock = Ok r
    ∧ length (goals_progress r) = length goals
    ∧ ∀ i g, goals !! i = Some g →
        ∃ p, compute_goal_progress (metric g) (target g) events (clock i) = Ok p
           ∧ goals_progress r !! i
             = Some (mk_goal_progress (metric g) (target g) p).
Proof.
  destruct (stats_returns events goals clock) as [gp Hr].
  eexists. split; [exact Hr|].
  apply stats_goals_progress, mapM_result_lookup in Hr as [Hlen Hlook].
  simpl in *. rewrite length_imap in Hlen. split; [exact Hlen|].
  intros i g Hg.
  destruct (Hlook i (i, g)) as (y & Hy & Hf).
  { rewrite list_lookup_imap, Hg. done. }
  simpl in Hf.
  destruct (compute_goal_progress (metric g) (target g) events (clock i))
    as [p|]; simpl in Hf; [|done].
  injection Hf as <-. eauto.
Qed.

(** ** The time series adds up to the totals *)

Lemma sum_Z_cons x xs : sum_Z (x :: xs) = x + sum_Z xs.
Proof. reflexivity. Qed.

Section Chart_sums.
Context (P : Event → Prop) `{!∀ e, Decision (P e)}.

Lemma count_on_cons s e l :
  count_on P s (e :: l)
  = (if decide (day_of e = s ∧ P e) then 1 else 0) + count_on P s l.
Proof.
  unfold count_on. rewrite filter_cons. case_decide; simpl; lia.
Qed.

(** A row counts for at most one of distinct days. *)
Lemma sum_indicator_days (L : list string) e :
  NoDup L →
  sum_Z ((fun s => if decide (day_of e = s ∧ P e) then 1 else 0) <$> L)
  = if decide (P e ∧ day_of e ∈ L) then 1 else 0.
Proof.
  induction 1 as [|s L Hs _ IH].
  - simpl. case_decide as Hd; [|done]. destruct Hd as [_ Hd].
    by apply elem_of_nil in Hd.
  - rewrite fmap_cons, sum_Z_cons, IH.
    repeat case_decide; rewrite ?elem_of_cons in *;
      first [lia | exfalso; naive_solver].
Qed.

Lemma sum_count_on (L : list string) (l : list Event) :
  NoDup L →
  sum_Z ((fun s => count_on P s l) <$> L)
  = Z.of_nat (length (filter (fun e => P e ∧ day_of e ∈ L) l)).
Proof.
  intros HL. induction l as [|e l IH].
  - rewrite filter_nil. simpl. clear HL.
    induction L as [|s L IHL]; [done|]. by rewrite fmap_cons, sum_Z_cons, IHL.
  - rewrite filter_cons.
    assert (sum_Z ((fun s => count_on P s (e :: l)) <$> L)
            = sum_Z ((fun s => if decide (day_of e = s ∧ P e) then 1 else 0) <$> L)
              + sum_Z ((fun s => count_on P s l) <$> L)) as ->.
    { clear. induction L as [|s L IHL]; [done|].
      rewrite !fmap_cons, !sum_Z_cons, IHL, count_on_cons. lia. }
    rewrite sum_indicator_days, IH by done.
    case_decide; simpl; lia.
Qed.

End Chart_sums.

Lemma filter_iff_elem_of {A : Type} (P Q : A → Prop)
    `{!∀ x, Decision (P x)} `{!∀ x, Decision (Q x)} (l : list A) :
  (∀ x, x ∈ l → P x ↔ Q x) → filter P l = filter Q l.
Proof.
  induction l as [|x l IH]; intros Hpq; [done|].
  rewrite !filter_cons, IH by (intros y Hy; apply Hpq; by right).
  pose proof (Hpq x ltac:(left)) as Hx.
  repeat case_decide; first [done | exfalso; tauto].
Qed.

(** Over the days of the chart, the goal counts add up to [total_goals] and
    the shot counts to [total_shots]: every counted row falls on exactly one
    day of the series. *)
Theorem chart_sums_to_totals events goals clock :
  ∃ r, stats events goals clock = Ok r
    ∧ sum_Z (chart_goals (chart_data r)) = total_goals r
    ∧ sum_Z (chart_shots (chart_data r)) = total_shots r.
Proof.
  destruct (stats_returns events goals clock) as [gp ->].
  eexists. split; [reflexivity|]. simpl. unfold chart_of. simpl.
  set (by_date := foldl by_date_step ∅ events).
  assert (∀ e, e ∈ events → field_goal e ∨ field_shot e →
               day_of e ∈ sorted_keys by_date) as Hkeys.
  { intros e Hin He. apply elem_of_sorted_keys.
    destruct (by_date_lookup events (day_of e)) as (_ & _ & Hk).
    apply Hk. eauto. }
  split.
  - rewrite (sum_ones_filter _ _ _ field_goal_iff).
    erewrite (list_fmap_ext _ (fun s => count_on field_goal s events));
      [|intros i s _; apply (by_date_lookup events s)].
    rewrite sum_count_on by apply NoDup_sorted_keys.
    f_equal. f_equal. apply filter_iff_elem_of.
    intros e Hin. split; [intros [H _]; exact H|].
    intros H. split; [exact H|]. apply Hkeys; [exact Hin|]. by left.
  - rewrite (sum_ones_filter _ _ _ field_shot_iff).
    erewrite (list_fmap_ext _ (fun s => count_on field_shot s events));
      [|intros i s _; apply (by_date_lookup events s)].
    rewrite sum_count_on by apply NoDup_sorted_keys.
    f_equal. f_equal. apply filter_iff_elem_of.
    intros e Hin. split; [intros [H _]; exact H|].
    intros H. split; [exact H|]. apply Hkeys; [exact Hin|]. by right.
Qed.

(** ** What an accepted submission does to the statistics *)

(** The row [add_event] stores for a validated form. *)
Lemma add_event_accepted (form : gmap string string) utcnow st p t :
  form !! "position" = Some p → form !! "event_type" = Some t → validated p t →
  add_event POST form utcnow st
  = (Redirect "index" "Event added!" "success",
     mkdb (db_events st
           ++ [mkEvent (fresh_id (event_id <$> db_events st)) utcnow p t
                 (bool_decide (form !! "on_target" = Some "yes"))
                 (bool_decide (form !! "scored" = Some "yes"))
                 (if str_truthy (strip (default "" (form !! "notes")))
                  then Some (strip (default "" (form !! "notes"))) else None)])
          (db_goals st)).
Proof.
  intros Hp Ht Hv. unfold add_event. rewrite Hp, Ht.
  destruct Hv as [[-> Hin]|[-> Hin]]; apply str_in_iff in Hin;
    simpl; rewrite Hin; reflexivity.
Qed.

(** A keeper row leaves [by_date] as it is. *)
Lemma by_date_step_keeper m e : position e = "keeper" → by_date_step m e = m.
Proof. intros He. unfold by_date_step. rewrite He. reflexivity. Qed.

(** An accepted submission adds one to the counter of its event type, to
    [total_on_target] and [total_goals] as its flags say, and to nothing
    else; a keeper event leaves the outfield percentages and the time series
    as they were, a field event the save percentage. *)
Theorem accepted_event_counts (form : gmap string string) utcnow st goals clock p t :
  form !! "position" = Some p → form !! "event_type" = Some t → validated p t →
  ∃ r r', stats (db_events st) goals clock = Ok r
    ∧ stats (db_events (add_event POST form utcnow st).2) goals clock = Ok r'
    ∧ total_shots r' = total_shots r + (if decide (t = "shot") then 1 else 0)
    ∧ total_on_target r'
      = total_on_target r
        + (if decide (t = "shot" ∧ form !! "on_target" = Some "yes") then 1 else 0)
    ∧ total_goals r'
      = total_goals r
        + (if decide (t = "goal" ∨ t = "shot" ∧ form !! "scored" = Some "yes")
           then 1 else 0)
    ∧ total_assists r' = total_assists r + (if decide (t = "assist") then 1 else 0)
    ∧ total_passes r' = total_passes r + (if decide (t = "pass") then 1 else 0)
    ∧ shots_on_against r'
      = shots_on_against r + (if decide (t = "shot_on_goal_against") then 1 else 0)
    ∧ saves r' = saves r + (if decide (t = "save") then 1 else 0)
    ∧ goals_allowed r' = goals_allowed r + (if decide (t = "concede") then 1 else 0)
    ∧ (p = "keeper" →
       goal_percentage r' = goal_percentage r
       ∧ on_target_percentage r' = on_target_percentage r
       ∧ chart_data r' = chart_data r)
    ∧ (p = "field" → save_percentage r' = save_percentage r).
Proof.
  intros Hp Ht Hv. rewrite (add_event_accepted form utcnow st p t Hp Ht Hv). simpl.
  destruct (stats_returns (db_events st) goals clock) as [gp ->].
  match goal with |- context [stats (?l ++ [?e])] =>
    destruct (stats_returns (l ++ [e]) goals clock) as [gp' ->]; set (ev := e) end.
  do 2 eexists. split; [reflexivity|]. split; [reflexivity|]. simpl.
  rewrite !sum_ones_app, !sum_ones_cons, !sum_ones_nil. simpl.
  assert (chart_of (db_events st ++ [ev]) = chart_of (db_events st)
          ∨ p = "field") as Hchart.
  { destruct Hv as [[-> _]|[-> _]]; [by right|left].
    unfold chart_of. rewrite foldl_snoc, by_date_step_keeper; done. }
  destruct Hv as [[-> Hin]|[-> Hin]];
    unfold OUTFIELD_TYPES, KEEPER_TYPES in Hin;
    rewrite !elem_of_cons, elem_of_nil in Hin;
    destruct Hin as [->|[->|[->|Hin]]];
    try (destruct Hin as [->|[]]); simpl;
    rewrite ?Z.add_0_r;
    (split; [|split; [|split; [|split; [|split; [|split; [|split; [|split;
       [|split]]]]]]]]);
    try (repeat case_bool_decide; repeat case_decide;
         first [lia | exfalso; intuition congruence]);
    first [ discriminate | intros _; rewrite ?Z.add_0_r; reflexivity
          | intros _; destruct Hchart as [->|[=]];
            rewrite ?Z.add_0_r; repeat split; reflexivity ].
Qed.

Lemma accepted_event_counts_witness :
  let form : gmap string string :=
    <["position" := "field"]> (<["event_type" := "shot"]>
      (<["scored" := "yes"]> ∅)) in
  let t0 := mkdatetime 2024 1 2 10 0 0 0 in
  form !! "position" = Some "field" ∧ form !! "event_type" = Some "shot"
  ∧ validated "field" "shot"
  ∧ ∃ r r', stats [] [] (fun _ => t0) = Ok r
      ∧ stats (db_events (add_event POST form t0 (mkdb [] [])).2) [] (fun _ => t0) = Ok r'
      ∧ total_shots r' = total_shots r + 1
      ∧ total_goals r' = total_goals r + 1.
Proof.
  intros form t0.
  assert (validated "field" "shot") as Hv.
  { left. split; [done|]. apply str_in_iff. reflexivity. }
  split; [reflexivity|]. split; [reflexivity|]. split; [exact Hv|].
  destruct (accepted_event_counts form t0 (mkdb [] []) [] (fun _ => t0)
              "field" "shot" eq_refl eq_refl Hv)
    as (r & r' & Hr & Hr' & Hs & _ & Hg & _).
  exists r, r'. split; [exact Hr|]. split; [exact Hr'|].
  split; [exact Hs|exact Hg].
Defined.

(** ** What [add_event] stores *)

Section Strip.

Lemma string_app_cons c s t : String c s +:+ t = String c (s +:+ t).
Proof. reflexivity. Qed.

Lemma string_app_nil_l s : "" +:+ s = s.
Proof. reflexivity. Qed.

Lemma byte_value n : (n < 256)%N → N_of_ascii (ascii_of_N n) = n.
Proof. apply N_ascii_embedding. Qed.

Lemma first_char_utf8 c s :
  code_point c → first_char (utf8_char c +:+ s) = Some (c, s).
Proof.
  unfold code_point, utf8_char. intros Hc.
  replace (c / 262144)%N with (c / 64 / 64 / 64)%N
    by (rewrite !N.Div0.div_div; reflexivity).
  replace (c / 4096)%N with (c / 64 / 64)%N
    by (rewrite !N.Div0.div_div; reflexivity).
  repeat match goal with |- context [N.ltb c ?b] =>
    destruct (N.ltb_spec c b) end;
    rewrite !string_app_cons, string_app_nil_l; unfold first_char, trail;
    rewrite !byte_value by euclid;
    repeat match goal with |- context [N.ltb ?a ?b] =>
      destruct (N.ltb_spec a b); try (exfalso; euclid) end;
    do 2 f_equal; euclid.
Qed.

Lemma utf8_cons c text : utf8 (c :: text) = utf8_char c +:+ utf8 text.
Proof. reflexivity. Qed.

Lemma utf8_char_cons c : ∃ a s, utf8_char c = String a s.
Proof.
  unfold utf8_char.
  repeat match goal with |- context [N.ltb c ?b] => destruct (N.ltb c b) end;
    eauto.
Qed.

Lemma utf8_nil_iff text : utf8 text = "" ↔ text = [].
Proof.
  split; [|by intros ->]. destruct text as [|c text]; [done|].
  rewrite utf8_cons. destruct (utf8_char_cons c) as (a & s & ->). done.
Qed.

Lemma string_length_app_ge s t :
  (String.length t ≤ String.length (s +:+ t))%nat.
Proof.
  induction s as [|a s IH]; [done|]. rewrite string_app_cons. simpl. lia.
Qed.

Lemma utf8_length text : (length text ≤ String.length (utf8 text))%nat.
Proof.
  induction text as [|c text IH]; [done|].
  rewrite utf8_cons. destruct (utf8_char_cons c) as (a & s & ->).
  rewrite string_app_cons. simpl.
  pose proof (string_length_app_ge s (utf8 text)). lia.
Qed.

Lemma skip_spaces_nil_iff text :
  skip_spaces text = [] ↔ forallb py_isspace text = true.
Proof.
  induction text as [|c text IH]; [done|]. simpl.
  destruct (py_isspace c); [exact IH|done].
Qed.

Lemma skip_spaces_code_points text :
  Forall code_point text → Forall code_point (skip_spaces text).
Proof.
  induction 1 as [|c text Hc Htext IH]; [constructor|]. simpl.
  destruct (py_isspace c); [exact IH|by constructor].
Qed.

Lemma lstrip_upto_utf8 n text :
  Forall code_point text → (length text ≤ n)%nat →
  lstrip_upto n (utf8 text) = utf8 (skip_spaces text).
Proof.
  revert text. induction n as [|n IH]; intros text Htext Hn.
  - destruct text; [done|simpl in Hn; lia].
  - destruct text as [|c text]; [done|].
    apply Forall_cons in Htext as [Hc Htext]. cbn [lstrip_upto].
    rewrite utf8_cons, first_char_utf8 by done. cbn [skip_spaces].
    destruct (py_isspace c); [|done].
    apply IH; [done|simpl in Hn; lia].
Qed.

Lemma lstrip_utf8 text :
  Forall code_point text → lstrip (utf8 text) = utf8 (skip_spaces text).
Proof. intros Htext. apply lstrip_upto_utf8; [done|apply utf8_length]. Qed.

(** A byte that continues a character is kept, and so is what comes before it. *)
Lemma rstrip_continuation n s :
  (0x80 ≤ n < 0xC0)%N →
  rstrip (String (ascii_of_N n) s) = String (ascii_of_N n) (rstrip s).
Proof.
  intros Hn. simpl rstrip. unfold lstrip. simpl lstrip_upto.
  rewrite byte_value by lia.
  destruct (N.ltb_spec n 0x80); [lia|].
  destruct (N.ltb_spec n 0xC0); [done|lia].
Qed.

Lemma rstrip_cons a s :
  rstrip (String a s)
  = if String.eqb (lstrip (String a s)) "" then "" else String a (rstrip s).
Proof. reflexivity. Qed.

Lemma rstrip_utf8_cons c text :
  code_point c → Forall code_point text →
  rstrip (utf8 (c :: text))
  = if forallb py_isspace (c :: text) then ""
    else utf8_char c +:+ rstrip (utf8 text).
Proof.
  intros Hc Htext.
  assert (lstrip (utf8 (c :: text)) = "" ↔ forallb py_isspace (c :: text) = true)
    as Hall.
  { rewrite lstrip_utf8 by (by constructor).
    rewrite utf8_nil_iff. apply skip_spaces_nil_iff. }
  rewrite utf8_cons in *. revert Hall. unfold utf8_char.
  repeat match goal with |- context [N.ltb c ?b] => destruct (N.ltb_spec c b) end;
    rewrite !string_app_cons, !string_app_nil_l; intros Hall;
    rewrite rstrip_cons;
    (match goal with |- context [String.eqb ?x ""] =>
       destruct (String.eqb_spec x "") as [He|He] end;
     [apply Hall in He; by rewrite He|]);
    (destruct (forallb py_isspace (c :: text)); [exfalso; by apply He, Hall|]);
    rewrite ?rstrip_continuation by euclid; reflexivity.
Qed.

Lemma rstrip_utf8 text :
  Forall code_point text → rstrip (utf8 text) = utf8 (skip_spaces_right text).
Proof.
  induction 1 as [|c text Hc Htext IH]; [done|].
  rewrite rstrip_utf8_cons by done. cbn [skip_spaces_right].
  destruct (forallb py_isspace (c :: text)); [done|].
  by rewrite IH.
Qed.

Lemma forallb_snoc {A : Type} (f : A → bool) l x :
  forallb f (l ++ [x]) = forallb f l && f x.
Proof. rewrite forallb_app. simpl. by rewrite andb_true_r. Qed.

Lemma skip_spaces_snoc text c :
  skip_spaces (text ++ [c])
  = if forallb py_isspace (text ++ [c]) then [] else skip_spaces text ++ [c]
    ++ [].
Proof.
  rewrite app_nil_r.
  induction text as [|d text IH]; simpl.
  - by destruct (py_isspace c).
  - destruct (py_isspace d); simpl; [exact IH|done].
Qed.

Lemma forallb_reverse {A : Type} (f : A → bool) l :
  forallb f (reverse l) = forallb f l.
Proof.
  induction l as [|x l IH]; [done|].
  rewrite reverse_cons, forallb_snoc, IH. simpl. apply andb_comm.
Qed.

Lemma skip_spaces_right_reverse text :
  skip_spaces_right text = reverse (skip_spaces (reverse text)).
Proof.
  induction text as [|c text IH]; [done|].
  rewrite reverse_cons, skip_spaces_snoc, app_nil_r.
  rewrite <- reverse_cons, forallb_reverse. cbn [skip_spaces_right].
  destruct (forallb py_isspace (c :: text)); [done|].
  by rewrite reverse_app, IH.
Qed.

(** [strip] on the encoding of a text is [trim] on the text. *)
Lemma strip_utf8 text :
  Forall code_point text → strip (utf8 text) = utf8 (trim text).
Proof.
  intros Htext. unfold strip, trim.
  rewrite lstrip_utf8 by done.
  rewrite rstrip_utf8 by (by apply skip_spaces_code_points).
  by rewrite skip_spaces_right_reverse.
Qed.

Lemma skip_spaces_spec text :
  ∃ pre, text = pre ++ skip_spaces text ∧ forallb py_isspace pre = true
    ∧ ¬ starts_with_space (skip_spaces text).
Proof.
  induction text as [|c text (pre & Heq & Hpre & Hhead)].
  - exists []. split; [done|]. split; [done|]. by intros (c & [=] & _).
  - simpl. destruct (py_isspace c) eqn:Hc.
    + exists (c :: pre). simpl. rewrite Hc, Hpre. split; [by f_equal|done].
    + exists []. split; [done|]. split; [done|].
      intros (d & [= <-] & Hd). congruence.
Qed.

Lemma trim_nil_iff text : trim text = [] ↔ forallb py_isspace text = true.
Proof.
  unfold trim. rewrite <- skip_spaces_right_reverse.
  destruct (skip_spaces_spec text) as (pre & Heq & Hpre & _).
  rewrite Heq at 2. rewrite forallb_app, Hpre. simpl.
  destruct (skip_spaces text) as [|c rest]; [done|]. cbn [skip_spaces_right].
  destruct (forallb py_isspace (c :: rest)); done.
Qed.

(** [trim] takes the longest run of white space off each end. *)
Lemma trim_spec text :
  ∃ pre post, text = pre ++ trim text ++ post
    ∧ forallb py_isspace pre = true ∧ forallb py_isspace post = true
    ∧ ¬ starts_with_space (trim text) ∧ ¬ ends_with_space (trim text).
Proof.
  unfold trim.
  destruct (skip_spaces_spec text) as (pre & Heq & Hpre & Hhead).
  destruct (skip_spaces_spec (reverse (skip_spaces text)))
    as (post & Heq' & Hpost & Hlast).
  exists pre, (reverse post).
  set (kept := skip_spaces (reverse (skip_spaces text))) in *.
  assert (skip_spaces text = reverse kept ++ reverse post) as Hmid.
  { rewrite <- reverse_app, <- Heq'. by rewrite reverse_involutive. }
  split; [by rewrite <- Hmid|]. split; [done|].
  split; [by rewrite forallb_reverse|]. split.
  - intros (c & Hc & Hsp). apply Hhead. exists c. split; [|done].
    rewrite Hmid. destruct (reverse kept); [done|exact Hc].
  - intros (c & Hc & Hsp). apply Hlast. exists c. split; [|done].
    by rewrite <- last_reverse.
Qed.

(** The note [add_event] stores for a submitted text. *)
Lemma stored_note text :
  Forall code_point text →
  (if str_truthy (strip (utf8 text)) then Some (strip (utf8 text)) else None)
  = if forallb py_isspace text then None else Some (utf8 (trim text)).
Proof.
  intros Htext. rewrite strip_utf8 by done.
  pose proof (trim_nil_iff text) as Hnil.
  pose proof (utf8_nil_iff (trim text)) as Hutf.
  destruct (utf8 (trim text)) as [|a s] eqn:Hs; simpl.
  - destruct (forallb py_isspace text); [done|].
    destruct Hutf as [Hutf _]. specialize (Hutf eq_refl).
    apply Hnil in Hutf. done.
  - destruct (forallb py_isspace text); [|done].
    destruct Hnil as [_ Hnil]. rewrite (Hnil eq_refl) in Hs. done.
Qed.

End Strip.

Lemma fresh_id_gt ids x : x ∈ ids → x < fresh_id ids.
Proof.
  unfold fresh_id. induction ids as [|y ids IH]; simpl.
  - intros Hin. by apply elem_of_nil in Hin.
  - rewrite elem_of_cons. intros [->|Hin]; [lia|]. specialize (IH Hin). lia.
Qed.

Lemma fresh_id_pos ids : 1 <= fresh_id ids.
Proof.
  unfold fresh_id. assert (0 <= foldr Z.max 0 ids); [|lia].
  induction ids as [|y ids IH]; simpl; lia.
Qed.

Lemma fresh_id_le ids b : 1 <= b → Forall (fun i => i < b) ids → fresh_id ids <= b.
Proof.
  intros Hb Hids. unfold fresh_id. assert (foldr Z.max 0 ids < b); [|lia].
  induction Hids as [|y ids Hy _ IH]; simpl; lia.
Qed.

(** The row of an accepted submission: a key above every key in the table,
    the time of the request, and flags that are set only by the value [yes];
    its note is the submitted text without the white space at its two ends,
    the white space being that of [str.isspace], and no note at all (never
    the empty string) when nothing else was submitted. *)
Theorem accepted_event_row (form : gmap string string) utcnow st p t text :
  form !! "position" = Some p → form !! "event_type" = Some t → validated p t →
  default "" (form !! "notes") = utf8 text → Forall code_point text →
  keys_below_max (event_id <$> db_events st) →
  ∃ ev, (add_event POST form utcnow st).2
        = mkdb (db_events st ++ [ev]) (db_goals st)
    ∧ position ev = p ∧ event_type ev = t ∧ timestamp ev = utcnow
    ∧ 1 <= event_id ev < 2 ^ 63
    ∧ (∀ e, e ∈ db_events st → event_id e < event_id ev)
    ∧ (on_target ev = true ↔ form !! "on_target" = Some "yes")
    ∧ (scored ev = true ↔ form !! "scored" = Some "yes")
    ∧ notes ev
      = (if forallb py_isspace text then None else Some (utf8 (trim text)))
    ∧ notes ev ≠ Some ""
    ∧ ∃ pre post, text = pre ++ trim text ++ post
        ∧ forallb py_isspace pre = true ∧ forallb py_isspace post = true
        ∧ ¬ starts_with_space (trim text) ∧ ¬ ends_with_space (trim text).
Proof.
  intros Hp Ht Hv Hnotes Htext Hkeys.
  rewrite (add_event_accepted form utcnow st p t Hp Ht Hv).
  eexists. split; [reflexivity|]. simpl.
  split; [done|]. split; [done|]. split; [done|].
  split.
  { split; [apply fresh_id_pos|].
    pose proof (fresh_id_le _ (2 ^ 63 - 1) ltac:(lia) Hkeys). lia. }
  split.
  { intros e He. apply fresh_id_gt, list_elem_of_fmap. eauto. }
  split; [apply bool_decide_eq_true|]. split; [apply bool_decide_eq_true|].
  rewrite Hnotes, stored_note by done.
  split; [reflexivity|]. split; [|apply trim_spec].
  destruct (forallb py_isspace text) eqn:Hall; [done|].
  intros [= Hempty]. apply utf8_nil_iff, trim_nil_iff in Hempty. congruence.
Qed.

(** A keeper save with a note between a no-break space and an em space, and
    one whose note is a no-break space and nothing else. *)
Lemma accepted_event_row_witness :
  let form (s : string) : gmap string string :=
    <["position" := "keeper"]> (<["event_type" := "save"]>
      (<["notes" := s]> ∅)) in
  let t0 := mkdatetime 2024 1 2 10 0 0 0 in
  let framed := [0xA0; 0x6C; 0x6F; 0x77; 0x20; 0x2003]%N in
  form (utf8 framed) !! "position" = Some "keeper"
  ∧ form (utf8 framed) !! "event_type" = Some "save"
  ∧ validated "keeper" "save"
  ∧ Forall code_point framed
  ∧ keys_below_max (event_id <$> db_events (mkdb [] []))
  ∧ (∃ ev, (add_event POST (form (utf8 framed)) t0 (mkdb [] [])).2 = mkdb [ev] []
       ∧ notes ev = Some "low")
  ∧ (∃ ev, (add_event POST (form (utf8 [0xA0%N])) t0 (mkdb [] [])).2 = mkdb [ev] []
       ∧ notes ev = None).
Proof.
  intros form t0 framed.
  assert (validated "keeper" "save") as Hv.
  { right. split; [done|]. apply str_in_iff. reflexivity. }
  assert (Forall code_point framed) as Hframed.
  { unfold code_point. repeat constructor. }
  assert (Forall code_point [0xA0%N]) as Hnbsp.
  { unfold code_point. repeat constructor. }
  assert (keys_below_max (event_id <$> db_events (mkdb [] []))) as Hkeys
    by constructor.
  split; [reflexivity|]. split; [reflexivity|]. split; [exact Hv|].
  split; [exact Hframed|]. split; [exact Hkeys|]. split.
  - destruct (accepted_event_row (form (utf8 framed)) t0 (mkdb [] [])
                "keeper" "save" framed eq_refl eq_refl Hv eq_refl Hframed Hkeys)
      as (ev & Hev & _ & _ & _ & _ & _ & _ & _ & Hnote & _).
    exists ev. split; [exact Hev|]. rewrite Hnote. reflexivity.
  - destruct (accepted_event_row (form (utf8 [0xA0%N])) t0 (mkdb [] [])
                "keeper" "save" [0xA0%N] eq_refl eq_refl Hv eq_refl Hnbsp Hkeys)
      as (ev & Hev & _ & _ & _ & _ & _ & _ & _ & Hnote & _).
    exists ev. split; [exact Hev|]. rewrite Hnote. reflexivity.
Defined.

(** ** The training goals and the keys of the tables *)

Section Goals.
Context (float_of_str : string → option pyfloat).

Lemma NoDup_fmap_filter {A B : Type} (f : A → B) (P : A → Prop)
    `{!∀ x, Decision (P x)} (l : list A) :
  NoDup (f <$> l) → NoDup (f <$> filter P l).
Proof.
  induction l as [|x l IH]; [done|]. rewrite fmap_cons, NoDup_cons.
  intros [Hx Hl]. rewrite filter_cons. case_decide; [|by apply IH].
  rewrite fmap_cons. apply NoDup_cons. split; [|by apply IH].
  intros Hin. apply Hx. apply list_elem_of_fmap in Hin as (y & -> & Hy).
  apply list_elem_of_filter in Hy as [_ Hy]. by apply list_elem_of_fmap_2.
Qed.

Lemma NoDup_snoc_fresh (ids : list Z) : NoDup ids → NoDup (ids ++ [fresh_id ids]).
Proof.
  intros Hnd. apply NoDup_app. split; [done|]. split; [|apply NoDup_singleton].
  intros x Hx Hin. apply list_elem_of_singleton in Hin.
  apply fresh_id_gt in Hx. lia.
Qed.

(** What [add_event] and [goals] do to the store: nothing, or one row more
    in their own table under a fresh key. *)
Lemma add_event_store_key m (form : gmap string string) utcnow st :
  (add_event m form utcnow st).2 = st
  ∨ ∃ ev, (add_event m form utcnow st).2 = mkdb (db_events st ++ [ev]) (db_goals st)
          ∧ event_id ev = fresh_id (event_id <$> db_events st).
Proof.
  unfold add_event. destruct m; [by left|].
  destruct (form !! "position") as [p|]; [|by left].
  destruct (form !! "event_type") as [t|]; [|by left].
  repeat match goal with |- context [if ?b then _ else _] => destruct b end;
    first [by left | right; eexists; split; reflexivity].
Qed.

Lemma goals_store_key m (form : gmap string string) utcnow st :
  (goals float_of_str m form utcnow st).2 = st
  ∨ ∃ g, (goals float_of_str m form utcnow st).2
         = mkdb (db_events st) (db_goals st ++ [g])
         ∧ goal_id g = fresh_id (goal_id <$> db_goals st).
Proof.
  unfold goals. destruct m; [by left|].
  destruct (form !! "metric") as [mt|]; [|by left].
  destruct (form !! "target") as [s|]; [|by left].
  destruct (float_of_str s) as [[x|neg|]|]; [| |by left|by left];
    right; eexists; split; reflexivity.
Qed.

Lemma filter_all {A : Type} (P : A → Prop) `{!∀ x, Decision (P x)} (l : list A) :
  Forall P l → filter P l = l.
Proof.
  induction 1 as [|x l Hx _ IH]; [done|].
  rewrite filter_cons, IH. by case_decide.
Qed.

Lemma sqlite_integer_iff n : sqlite_integer n = true ↔ - 2 ^ 63 <= n < 2 ^ 63.
Proof. unfold sqlite_integer. rewrite andb_true_iff, Z.leb_le, Z.ltb_lt. done. Qed.

Lemma delete_goal_goals id st :
  sqlite_integer id = true →
  db_goals (delete_goal id st).2
  = filter (fun g => goal_id g ≠ id) (db_goals st).
Proof.
  intros Hid. unfold delete_goal. rewrite Hid. simpl.
  destruct (list_find _ _) as [[i g]|] eqn:Hfind; simpl.
  - apply list_find_Some in Hfind as (_ & -> & _). done.
  - symmetry. apply filter_all. apply list_find_None in Hfind.
    eapply Forall_impl; [exact Hfind|]. done.
Qed.

(** [delete_goal] never touches the events.  At a key outside the 64-bit
    integers it ends with status 500 and changes nothing.  At any other key
    it answers 404 and changes nothing when no goal has the key; otherwise
    it redirects, removes the goals with that key and keeps the others in
    their order, so that no goal has the key afterwards; where the keys are
    distinct it removes exactly one goal. *)
Theorem delete_goal_removes_the_key id st :
  db_events (delete_goal id st).2 = db_events st
  ∧ (¬ (- 2 ^ 63 <= id < 2 ^ 63) →
     delete_goal id st = (Answer (InternalServerError OverflowError), st))
  ∧ (- 2 ^ 63 <= id < 2 ^ 63 →
     (id ∉ (goal_id <$> db_goals st) → delete_goal id st = (NotFound, st))
     ∧ (id ∈ (goal_id <$> db_goals st) →
        (delete_goal id st).1 = Answer (Redirect "goals" "Goal removed" "info"))
     ∧ db_goals (delete_goal id st).2
       = filter (fun g => goal_id g ≠ id) (db_goals st)
     ∧ ¬ (id ∈ (goal_id <$> db_goals (delete_goal id st).2))
     ∧ (NoDup (goal_id <$> db_goals st) → id ∈ (goal_id <$> db_goals st) →
        ∃ l1 g l2, db_goals st = l1 ++ g :: l2 ∧ goal_id g = id
                   ∧ db_goals (delete_goal id st).2 = l1 ++ l2)).
Proof.
  split; [|split].
  - unfold delete_goal. destruct (sqlite_integer id); [|done]. simpl.
    destruct (list_find _ _) as [[i g]|]; done.
  - intros Hout. unfold delete_goal.
    destruct (sqlite_integer id) eqn:Hid; [|done].
    apply sqlite_integer_iff in Hid. done.
  - intros Hid. apply sqlite_integer_iff in Hid.
    split; [|split; [|split; [|split]]].
    + intros Hno. unfold delete_goal. rewrite Hid. simpl.
      destruct (list_find _ _) as [[i g]|] eqn:Hfind; [|done].
      apply list_find_Some in Hfind as (Hi & Hg & _).
      exfalso. apply Hno. apply list_elem_of_fmap. exists g.
      split; [done|]. by eapply list_elem_of_lookup_2.
    + intros Hin. apply list_elem_of_fmap in Hin as (g & -> & Hg).
      unfold delete_goal. rewrite Hid. simpl.
      destruct (list_find_elem_of (fun g' => goal_id g' = goal_id g) _ g Hg eq_refl)
        as [[i g'] ->]. done.
    + by apply delete_goal_goals.
    + rewrite delete_goal_goals by done. intros Hin.
      apply list_elem_of_fmap in Hin as (g & -> & Hg).
      apply list_elem_of_filter in Hg as [Hne _]. done.
    + intros Hnd Hin. apply list_elem_of_fmap in Hin as (g & -> & Hg).
      apply list_elem_of_split in Hg as (l1 & l2 & Hsplit).
      exists l1, g, l2. split; [done|]. split; [done|].
      rewrite delete_goal_goals, Hsplit, filter_app, filter_cons by done.
      rewrite Hsplit, fmap_app, fmap_cons in Hnd.
      apply NoDup_app in Hnd as (_ & Hdisj & Hnd2).
      apply NoDup_cons in Hnd2 as [Hg2 _].
      case_decide; [done|].
      rewrite !filter_all; [done| |].
      * apply Forall_forall. intros x Hx Heq. apply Hg2.
        rewrite <- Heq. by apply list_elem_of_fmap_2.
      * apply Forall_forall. intros x Hx Heq.
        apply (Hdisj (goal_id x)); [by apply list_elem_of_fmap_2|].
        rewrite Heq. left.
Qed.

(** Two goals: the first is removed by its key, the key 7 is not found, and
    the key [2 ^ 63] is refused. *)
Lemma delete_goal_removes_the_key_witness :
  let t0 := mkdatetime 2024 1 2 10 0 0 0 in
  let g1 := mkTrainingGoal 1 "goals_per_week" (Finite 3%Q) t0 in
  let g2 := mkTrainingGoal 2 "save_percentage" (Finite 80%Q) t0 in
  - 2 ^ 63 <= 1 < 2 ^ 63 ∧ - 2 ^ 63 <= 7 < 2 ^ 63 ∧ ¬ (- 2 ^ 63 <= 2 ^ 63 < 2 ^ 63)
  ∧ NoDup (goal_id <$> [g1; g2]) ∧ 1 ∈ (goal_id <$> [g1; g2])
  ∧ db_goals (delete_goal 1 (mkdb [] [g1; g2])).2 = [g2]
  ∧ delete_goal 7 (mkdb [] [g1; g2]) = (NotFound, mkdb [] [g1; g2])
  ∧ delete_goal (2 ^ 63) (mkdb [] [g1; g2])
    = (Answer (InternalServerError OverflowError), mkdb [] [g1; g2]).
Proof.
  intros t0 g1 g2.
  assert (NoDup (goal_id <$> [g1; g2])) as Hnd.
  { simpl. apply NoDup_cons. split; [|apply NoDup_singleton].
    intros Hin. apply list_elem_of_singleton in Hin. discriminate Hin. }
  assert (1 ∈ (goal_id <$> [g1; g2])) as Hin by left.
  assert (- 2 ^ 63 <= 1 < 2 ^ 63) as H1 by lia.
  assert (- 2 ^ 63 <= 7 < 2 ^ 63) as H7 by lia.
  assert (¬ (- 2 ^ 63 <= 2 ^ 63 < 2 ^ 63)) as Hbig by lia.
  split; [exact H1|]. split; [exact H7|]. split; [exact Hbig|].
  split; [exact Hnd|]. split; [exact Hin|].
  destruct (delete_goal_removes_the_key 1 (mkdb [] [g1; g2]))
    as (_ & _ & Hone).
  destruct (Hone H1) as (_ & _ & Hkept & _ & _).
  destruct (delete_goal_removes_the_key 7 (mkdb [] [g1; g2]))
    as (_ & _ & Hseven).
  destruct (Hseven H7) as (Hno & _).
  destruct (delete_goal_removes_the_key (2 ^ 63) (mkdb [] [g1; g2]))
    as (_ & Hover & _).
  split; [rewrite Hkept; reflexivity|]. split; [|exact (Hover Hbig)].
  apply Hno. simpl.
  intros Hn. rewrite !elem_of_cons, elem_of_nil in Hn.
  destruct Hn as [Hn|[Hn|[]]]; discriminate Hn.
Defined.

(** A goal that [goals] has stored is removed again by [delete_goal] with its
    key, and the database is then what it was before; the keys of the table
    are below the largest integer of the database. *)
Theorem goal_added_then_deleted m (form : gmap string string) utcnow st :
  keys_below_max (goal_id <$> db_goals st) →
  (goals float_of_str m form utcnow st).2 ≠ st →
  ∃ g, db_goals (goals float_of_str m form utcnow st).2 = db_goals st ++ [g]
    ∧ (∀ g', g' ∈ db_goals st → goal_id g' < goal_id g)
    ∧ delete_goal (goal_id g) (goals float_of_str m form utcnow st).2
      = (Answer (Redirect "goals" "Goal removed" "info"), st).
Proof.
  intros Hkeys Hchanged.
  destruct (goals_store_key m form utcnow st) as [Hsame|(g & Hst & Hid)];
    [done|].
  exists g. rewrite Hst. simpl. split; [done|].
  assert (∀ g', g' ∈ db_goals st → goal_id g' < goal_id g) as Hlt.
  { intros g' Hg'. rewrite Hid. by apply fresh_id_gt, list_elem_of_fmap_2. }
  split; [exact Hlt|]. unfold delete_goal.
  assert (sqlite_integer (goal_id g) = true) as ->.
  { apply sqlite_integer_iff. rewrite Hid.
    pose proof (fresh_id_pos (goal_id <$> db_goals st)).
    pose proof (fresh_id_le _ (2 ^ 63 - 1) ltac:(lia) Hkeys). lia. }
  simpl.
  destruct (list_find _ _) as [[i g']|] eqn:Hfind; simpl.
  - apply list_find_Some in Hfind as (_ & Hg' & _). rewrite Hg'.
    rewrite filter_app, filter_cons, filter_nil.
    case_decide; [done|]. rewrite app_nil_r, filter_all.
    + by destruct st.
    + apply Forall_forall. intros x Hx. specialize (Hlt x Hx). lia.
  - apply list_find_None in Hfind. simpl in Hfind.
    rewrite Forall_app, Forall_singleton in Hfind.
    destruct Hfind as [_ Hfind]. done.
Qed.

Lemma serve_keys_ok st req : keys_ok st → keys_ok (serve float_of_str st req).
Proof.
  intros (He & Hep & Hg & Hgp). destruct req as [m form utcnow|m form utcnow|id|]; simpl.
  - destruct (add_event_store_key m form utcnow st) as [->|(ev & -> & Hid)];
      [done|]. unfold keys_ok. simpl. rewrite fmap_app, fmap_cons, Hid. simpl.
    split; [by apply NoDup_snoc_fresh|]. split; [|done].
    apply Forall_app. split; [done|]. apply Forall_singleton, fresh_id_pos.
  - destruct (goals_store_key m form utcnow st) as [->|(g & -> & Hid)];
      [done|]. unfold keys_ok. simpl. rewrite fmap_app, fmap_cons, Hid. simpl.
    split; [done|]. split; [done|]. split; [by apply NoDup_snoc_fresh|].
    apply Forall_app. split; [done|]. apply Forall_singleton, fresh_id_pos.
  - unfold keys_ok. unfold delete_goal.
    destruct (sqlite_integer id); simpl; [|done].
    destruct (list_find _ _) as [[i g]|]; simpl; [|done].
    split; [done|]. split; [done|]. split; [by apply NoDup_fmap_filter|].
    rewrite Forall_forall in Hgp |- *. intros y Hy.
    apply list_elem_of_fmap in Hy as (x & -> & Hx).
    apply list_elem_of_filter in Hx as [_ Hx].
    apply Hgp. by apply list_elem_of_fmap_2.
  - unfold keys_ok. simpl. repeat split; constructor.
Qed.

(** Whatever requests were served, the keys of the events are distinct and
    positive, and so are the keys of the training goals: [get_or_404] finds
    at most one row. *)
Theorem keys_stay_distinct reqs :
  NoDup (event_id <$> db_events (store_after float_of_str reqs))
  ∧ Forall (fun i => 1 <= i) (event_id <$> db_events (store_after float_of_str reqs))
  ∧ NoDup (goal_id <$> db_goals (store_after float_of_str reqs))
  ∧ Forall (fun i => 1 <= i) (goal_id <$> db_goals (store_after float_of_str reqs)).
Proof.
  change (keys_ok (store_after float_of_str reqs)). unfold store_after.
  induction reqs as [|req reqs IH] using rev_ind.
  - unfold keys_ok. simpl. repeat split; constructor.
  - rewrite foldl_snoc. apply serve_keys_ok, IH.
Qed.

End Goals.

Lemma goal_added_then_deleted_witness :
  let f : string → option pyfloat := fun _ => Some (Finite 3%Q) in
  let form : gmap string string :=
    <["metric" := " goals_per_week "]> (<["target" := "3"]> ∅) in
  let t0 := mkdatetime 2024 1 2 10 0 0 0 in
  keys_below_max (goal_id <$> db_goals (mkdb [] []))
  ∧ (goals f POST form t0 (mkdb [] [])).2 ≠ mkdb [] []
  ∧ ∃ g, metric g = "goals_per_week"
      ∧ delete_goal (goal_id g) (goals f POST form t0 (mkdb [] [])).2
        = (Answer (Redirect "goals" "Goal removed" "info"), mkdb [] []).
Proof.
  intros f form t0.
  assert (keys_below_max (goal_id <$> db_goals (mkdb [] []))) as Hkeys
    by constructor.
  assert ((goals f POST form t0 (mkdb [] [])).2 ≠ mkdb [] []) as Hne
    by (vm_compute; discriminate).
  split; [exact Hkeys|]. split; [exact Hne|].
  destruct (goal_added_then_deleted f POST form t0 (mkdb [] []) Hkeys Hne)
    as (g & Hg & _ & Hdel).
  exists g. split; [|exact Hdel].
  vm_compute in Hg. injection Hg as <-. reflexivity.
Defined.

(** ** How the counters divide the rows *)

Lemma typed_rows_cons e events :
  typed_rows (e :: events)
  = (if String.eqb (position e) "field" && String.eqb (event_type e) "shot"
     then 1 else 0)
    + (if String.eqb (position e) "field" && String.eqb (event_type e) "assist"
       then 1 else 0)
    + (if String.eqb (position e) "field" && String.eqb (event_type e) "pass"
       then 1 else 0)
    + (if String.eqb (position e) "keeper"
          && String.eqb (event_type e) "shot_on_goal_against" then 1 else 0)
    + (if String.eqb (position e) "keeper" && String.eqb (event_type e) "save"
       then 1 else 0)
    + (if String.eqb (position e) "keeper" && String.eqb (event_type e) "concede"
       then 1 else 0)
    + typed_rows events.
Proof. unfold typed_rows. rewrite !sum_ones_cons. lia. Qed.

(** No row is counted by two of the six counters. *)
Lemma typed_rows_le_length events : typed_rows events <= Z.of_nat (length events).
Proof.
  induction events as [|e events IH]; [done|].
  rewrite typed_rows_cons. simpl length. rewrite Nat2Z.inj_succ.
  repeat match goal with
         | |- context [String.eqb (position e) ?s] =>
             let H := fresh in
             destruct (String.eqb_spec (position e) s) as [H|H];
             [try rewrite H|]; simpl
         | |- context [String.eqb (event_type e) ?s] =>
             let H := fresh in
             destruct (String.eqb_spec (event_type e) s) as [H|H];
             [try rewrite H|]; simpl
         end; lia.
Qed.

(** A validated row is counted by exactly one of them, unless its type is
    [goal]. *)
Lemma typed_rows_validated events :
  Forall (fun e => validated (position e) (event_type e)) events →
  typed_rows events
  + Z.of_nat (length (filter (fun e => event_type e = "goal") events))
  = Z.of_nat (length events).
Proof.
  induction 1 as [|e events He _ IH]; [done|].
  rewrite typed_rows_cons, filter_cons. simpl length. rewrite Nat2Z.inj_succ.
  assert ((if String.eqb (position e) "field" && String.eqb (event_type e) "shot"
           then 1 else 0)
          + (if String.eqb (position e) "field" && String.eqb (event_type e) "assist"
             then 1 else 0)
          + (if String.eqb (position e) "field" && String.eqb (event_type e) "pass"
             then 1 else 0)
          + (if String.eqb (position e) "keeper"
                && String.eqb (event_type e) "shot_on_goal_against" then 1 else 0)
          + (if String.eqb (position e) "keeper" && String.eqb (event_type e) "save"
             then 1 else 0)
          + (if String.eqb (position e) "keeper"
                && String.eqb (event_type e) "concede" then 1 else 0)
          + (if decide (event_type e = "goal") then 1 else 0) = 1) as Hone.
  { destruct He as [[-> Hin]|[-> Hin]];
      unfold OUTFIELD_TYPES, KEEPER_TYPES in Hin;
      rewrite !elem_of_cons, elem_of_nil in Hin;
      destruct Hin as [->|[->|[->|Hin]]];
      first [reflexivity | destruct Hin as [->|[]]; reflexivity | destruct Hin]. }
  case_decide; simpl length; lia.
Qed.

(** The six counters of [stats] by event type never count a row twice:
    together they are at most the number of rows, and over validated rows
    they and the rows of type [goal] are all the rows.  [total_goals] adds
    the scored shots to the field rows of type [goal]. *)
Theorem counters_divide_the_rows events goals clock :
  ∃ r, stats events goals clock = Ok r
    ∧ total_shots r + total_assists r + total_passes r
      + shots_on_against r + saves r + goals_allowed r
      <= Z.of_nat (length events)
    ∧ total_goals r
      = Z.of_nat (length (filter (fun e =>
          position e = "field" ∧ event_type e = "goal") events))
        + Z.of_nat (length (filter (fun e =>
            position e = "field" ∧ event_type e = "shot" ∧ scored e = true)
            events))
    ∧ (Forall (fun e => validated (position e) (event_type e)) events →
       total_shots r + total_assists r + total_passes r
       + shots_on_against r + saves r + goals_allowed r
       + Z.of_nat (length (filter (fun e => event_type e = "goal") events))
       = Z.of_nat (length events)).
Proof.
  destruct (stats_returns events goals clock) as [gp ->].
  eexists. split; [reflexivity|]. simpl.
  split; [apply typed_rows_le_length|]. split; [|apply typed_rows_validated].
  rewrite (sum_ones_filter _ _ _ field_goal_iff).
  induction events as [|e events IH]; [done|].
  rewrite !filter_cons.
  repeat case_decide; simpl length; rewrite ?Nat2Z.inj_succ;
    first [lia | exfalso; intuition congruence].
Qed.

Lemma counters_divide_the_rows_witness :
  let t0 := mkdatetime 2024 1 2 10 0 0 0 in
  let events := [mkEvent 1 t0 "field" "goal" false false None;
                 mkEvent 2 t0 "keeper" "save" false false None] in
  Forall (fun e => validated (position e) (event_type e)) events
  ∧ ∃ r, stats events [] (fun _ => t0) = Ok r
      ∧ total_shots r + total_assists r + total_passes r
        + shots_on_against r + saves r + goals_allowed r + 1 = 2.
Proof.
  intros t0 events.
  assert (Forall (fun e => validated (position e) (event_type e)) events) as Hv.
  { constructor; [left|constructor; [right|constructor]];
      (split; [reflexivity|]); apply str_in_iff; reflexivity. }
  split; [exact Hv|].
  destruct (counters_divide_the_rows events [] (fun _ => t0))
    as (r & Hr & _ & _ & Hall).
  exists r. split; [exact Hr|]. exact (Hall Hv).
Defined.

(** ** [goals_per_week] against the totals *)

Lemma date_le_trans a b c : date_le a b → date_le b c → date_le a c.
Proof. unfold date_le. lia. Qed.

Lemma filter_length_le {A : Type} (c1 c2 : A → bool) (l : list A) :
  (∀ x, c1 x = true → c2 x = true) →
  (length (List.filter c1 l) <= length (List.filter c2 l))%nat.
Proof.
  intros Himp. apply Nat2Z.inj_le. rewrite <- !sum_ones_length.
  by apply sum_ones_mono.
Qed.

(** The progress of [goals_per_week] is a count between 0 and [total_goals],
    and it does not grow when the clock moves on. *)
Theorem goals_per_week_bounded target events utcnow utcnow' goals clock :
  date_le (datetime_date utcnow) (datetime_date utcnow') →
  ∃ r n n', stats events goals clock = Ok r
    ∧ compute_goal_progress "goals_per_week" target events utcnow = Ok (PInt n)
    ∧ compute_goal_progress "goals_per_week" target events utcnow' = Ok (PInt n')
    ∧ 0 <= n' ∧ n' <= n ∧ n <= total_goals r.
Proof.
  intros Hclock. destruct (stats_returns events goals clock) as [gp ->].
  do 3 eexists. split; [reflexivity|].
  unfold compute_goal_progress. simpl.
  split; [reflexivity|]. split; [reflexivity|].
  split; [lia|]. split.
  - apply inj_le, filter_length_le. intros e He.
    apply andb_true_iff in He as [He Hd]. rewrite He. simpl.
    apply date_ge_iff. apply date_ge_iff in Hd.
    by eapply date_le_trans.
  - rewrite sum_ones_length. apply inj_le, filter_length_le. intros e He.
    apply andb_true_iff in He as [He _]. exact He.
Qed.

Lemma goals_per_week_bounded_witness :
  let today := mkdatetime 2024 1 2 10 0 0 0 in
  let tomorrow := mkdatetime 2024 1 3 9 0 0 0 in
  date_le (datetime_date today) (datetime_date tomorrow)
  ∧ ∃ n n', compute_goal_progress "goals_per_week" (Finite 3%Q) goals_on_two_days today
            = Ok (PInt n)
      ∧ compute_goal_progress "goals_per_week" (Finite 3%Q) goals_on_two_days tomorrow
        = Ok (PInt n')
      ∧ n' <= n.
Proof.
  intros today tomorrow.
  assert (date_le (datetime_date today) (datetime_date tomorrow)) as Hle
    by (unfold date_le; simpl; lia).
  split; [exact Hle|].
  destruct (goals_per_week_bounded (Finite 3%Q) goals_on_two_days today tomorrow []
              (fun _ => today) Hle)
    as (r & n & n' & _ & Hn & Hn' & _ & Hnn & _).
  exists n, n'. split; [exact Hn|]. split; [exact Hn'|exact Hnn].
Defined.

(** ** A posted training goal on the statistics page *)

Lemma mapM_result_snoc {A B : Type} (f : A → result B) (l : list A) a ys y :
  mapM f l = Ok ys → f a = Ok y → mapM f (l ++ [a]) = Ok (ys ++ [y]).
Proof.
  revert ys. induction l as [|b l IH]; intros ys; simpl.
  - intros [= <-] ->. reflexivity.
  - destruct (f b) as [b'|]; simpl; [|done].
    destruct (mapM f l) as [bs|]; simpl; [|done].
    intros [= <-] Ha. by rewrite (IH bs eq_refl Ha).
Qed.

(** One training goal more at the end of the table is one entry more at the
    end of [goals_progress], and nothing else. *)
Lemma stats_goal_appended events goals g clock r p :
  stats events goals clock = Ok r →
  compute_goal_progress (metric g) (target g) events (clock (length goals)) = Ok p →
  stats events (goals ++ [g]) clock
  = Ok (mk_stats_page (total_shots r) (total_on_target r) (total_goals r)
          (total_assists r) (total_passes r) (goal_percentage r)
          (on_target_percentage r) (shots_on_against r) (saves r)
          (save_percentage r) (goals_allowed r)
          (goals_progress r ++ [mk_goal_progress (metric g) (target g) p])
          (chart_data r)).
Proof.
  unfold stats. rewrite !guarded_percentage_ok. simpl.
  destruct (mapM _ (imap pair goals)) as [gp|] eqn:Hgp; simpl; [|done].
  intros [= <-] Hp. rewrite imap_app. simpl. rewrite Nat.add_0_r.
  erewrite mapM_result_snoc; [reflexivity|exact Hgp|].
  simpl. by rewrite Hp.
Qed.

(** A posted goal whose target is not a number is refused and nothing is
    stored; one whose target is [nan] ends with status 500, and nothing is
    stored either.  Otherwise the goal is stored under the metric as
    submitted, without the white space at its ends, whether the metric is a
    known one or not; [stats] then reports one entry more, at the end, with
    that metric, the target and the progress of [compute_goal_progress],
    which is [None] for a metric that is none of the three known ones; the
    rest of the page is as before. *)
Theorem posted_goal_reported float_of_str (form : gmap string string) utcnow st
    events clock text s :
  form !! "metric" = Some (utf8 text) → Forall code_point text →
  form !! "target" = Some s →
  (float_of_str s = None →
   goals float_of_str POST form utcnow st
   = (Redirect "goals" "Target must be a number" "danger", st))
  ∧ (float_of_str s = Some NaN →
     goals float_of_str POST form utcnow st
     = (InternalServerError IntegrityError, st))
  ∧ (∀ x, float_of_str s = Some x → x ≠ NaN →
     (goals float_of_str POST form utcnow st).1
     = Redirect "goals" "Training goal added" "success"
     ∧ ∃ r p,
       stats events (db_goals st) clock = Ok r
       ∧ compute_goal_progress (utf8 (trim text)) x events
           (clock (length (db_goals st))) = Ok p
       ∧ (utf8 (trim text)
            ∉ ["goals_per_week"; "save_percentage"; "shots_per_training"] →
          p = PNone)
       ∧ stats events (db_goals (goals float_of_str POST form utcnow st).2) clock
         = Ok (mk_stats_page (total_shots r) (total_on_target r) (total_goals r)
                 (total_assists r) (total_passes r) (goal_percentage r)
                 (on_target_percentage r) (shots_on_against r) (saves r)
                 (save_percentage r) (goals_allowed r)
                 (goals_progress r ++ [mk_goal_progress (utf8 (trim text)) x p])
                 (chart_data r))).
Proof.
  intros Hm Htext Ht. unfold goals. rewrite Hm, Ht, strip_utf8 by done.
  split; [|split].
  - intros ->. reflexivity.
  - intros ->. reflexivity.
  - intros x -> Hx.
    set (mt := utf8 (trim text)).
    assert (∃ r p,
      stats events (db_goals st) clock = Ok r
      ∧ compute_goal_progress mt x events (clock (length (db_goals st))) = Ok p
      ∧ (mt ∉ ["goals_per_week"; "save_percentage"; "shots_per_training"] →
         p = PNone)
      ∧ stats events
          (db_goals st
           ++ [mkTrainingGoal (fresh_id (goal_id <$> db_goals st)) mt x utcnow])
          clock
        = Ok (mk_stats_page (total_shots r) (total_on_target r) (total_goals r)
                (total_assists r) (total_passes r) (goal_percentage r)
                (on_target_percentage r) (shots_on_against r) (saves r)
                (save_percentage r) (goals_allowed r)
                (goals_progress r ++ [mk_goal_progress mt x p])
                (chart_data r))) as Hpage.
    { destruct (stats_returns events (db_goals st) clock) as [gp Hr].
      destruct (compute_goal_progress_ok mt x events
                  (clock (length (db_goals st)))) as [p Hp].
      eexists. exists p. split; [exact Hr|]. split; [exact Hp|]. split.
      - intros Hunknown. rewrite !elem_of_cons, elem_of_nil in Hunknown.
        unfold compute_goal_progress in Hp.
        destruct (String.eqb_spec mt "goals_per_week"); [tauto|].
        destruct (String.eqb_spec mt "save_percentage"); [tauto|].
        destruct (String.eqb_spec mt "shots_per_training"); [tauto|].
        by injection Hp as <-.
      - by rewrite (stats_goal_appended _ _ _ _ _ p Hr). }
    destruct x as [x|neg|]; [| |done]; (split; [reflexivity|exact Hpage]).
Qed.

(** The metric [streak] between a space and a no-break space, with a finite
    target, with an infinite one and with [nan]. *)
Lemma posted_goal_reported_witness :
  let f : string → option pyfloat := fun s =>
    if String.eqb s "3" then Some (Finite 3%Q)
    else if String.eqb s "inf" then Some (Infinity false)
    else if String.eqb s "nan" then Some NaN
    else None in
  let text := [0x20; 0x73; 0x74; 0x72; 0x65; 0x61; 0x6B; 0xA0]%N in
  let form (s : string) : gmap string string :=
    <["metric" := utf8 text]> (<["target" := s]> ∅) in
  let t0 := mkdatetime 2024 1 2 10 0 0 0 in
  Forall code_point text
  ∧ (∃ r, stats scenario_A (db_goals (goals f POST (form "3") t0 (mkdb [] [])).2)
                (fun _ => t0) = Ok r
       ∧ goals_progress r = [mk_goal_progress "streak" (Finite 3%Q) PNone])
  ∧ (∃ r, stats scenario_A (db_goals (goals f POST (form "inf") t0 (mkdb [] [])).2)
                (fun _ => t0) = Ok r
       ∧ goals_progress r = [mk_goal_progress "streak" (Infinity false) PNone])
  ∧ goals f POST (form "nan") t0 (mkdb [] [])
    = (InternalServerError IntegrityError, mkdb [] [])
  ∧ goals f POST (form "three") t0 (mkdb [] [])
    = (Redirect "goals" "Target must be a number" "danger", mkdb [] []).
Proof.
  intros f text form t0.
  assert (Forall code_point text) as Htext.
  { unfold code_point. repeat constructor. }
  assert (utf8 (trim text)
            ∉ ["goals_per_week"; "save_percentage"; "shots_per_training"])
    as Hunknown.
  { replace (utf8 (trim text)) with "streak" by reflexivity.
    intros Hin. rewrite !elem_of_cons, elem_of_nil in Hin.
    destruct Hin as [H|[H|[H|[]]]]; discriminate H. }
  assert (stats scenario_A [] (fun _ => t0) = Ok
            (mk_stats_page 2 1 1 0 0 (Some 50%Q) (Some 50%Q) 0 0 None 0 []
               (mk_chart ["2024-01-02"] [1] [2]))) as Hpage
    by (vm_compute; reflexivity).
  split; [exact Htext|]. split; [|split; [|split]].
  - destruct (posted_goal_reported f (form "3") t0 (mkdb [] []) scenario_A
                (fun _ => t0) text "3" eq_refl Htext eq_refl)
      as (_ & _ & Hposted).
    destruct (Hposted (Finite 3%Q) eq_refl ltac:(discriminate))
      as (_ & r & p & Hr & _ & Hnone & Hr').
    eexists. split; [exact Hr'|]. simpl. rewrite (Hnone Hunknown).
    simpl in Hr. rewrite Hpage in Hr. injection Hr as <-. reflexivity.
  - destruct (posted_goal_reported f (form "inf") t0 (mkdb [] []) scenario_A
                (fun _ => t0) text "inf" eq_refl Htext eq_refl)
      as (_ & _ & Hposted).
    destruct (Hposted (Infinity false) eq_refl ltac:(discriminate))
      as (_ & r & p & Hr & _ & Hnone & Hr').
    eexists. split; [exact Hr'|]. simpl. rewrite (Hnone Hunknown).
    simpl in Hr. rewrite Hpage in Hr. injection Hr as <-. reflexivity.
  - destruct (posted_goal_reported f (form "nan") t0 (mkdb [] []) scenario_A
                (fun _ => t0) text "nan" eq_refl Htext eq_refl)
      as (_ & Hnan & _).
    exact (Hnan eq_refl).
  - destruct (posted_goal_reported f (form "three") t0 (mkdb [] []) scenario_A
                (fun _ => t0) text "three" eq_refl Htext eq_refl)
      as (Hnone & _).
    exact (Hnone eq_refl).
Defined.
